(** * Verification of the election-result development server

    A shallow embedding of [server.py]: the snapshot generator
    ([new_random_snapshot]), the two writers ([write_csv_and_json]), the
    background updater ([run_updater]) and the request handler
    ([NoCacheRequestHandler]).

    Python [str] values are modelled as [string] (their UTF-8 bytes), Python
    [bytes] as [list byte], Python [int] as [Z], and the row dictionaries as
    [gmap string pyval]. *)

From Stdlib Require Import ZArith Ascii Strings.Byte DecimalString Decimal DecimalZ.
From Stdlib Require String.
From stdpp Require Import base option list gmap strings.

Local Open Scope Z_scope.

(** ** Python values held by a row dictionary *)

Inductive pyval : Type :=
  | PStr (s : string)
  | PInt (z : Z).

Global Instance pyval_eq_dec : EqDecision pyval.
Proof. solve_decision. Defined.

(** [str(n)] / [int.__repr__(n)] for a Python integer: decimal, with a
    leading minus sign for negatives. *)
Definition py_str_int (z : Z) : string :=
  NilZero.string_of_int (Z.to_int z).

(** [str(v)] as the csv writer applies it to a field. *)
Definition py_str (v : pyval) : string :=
  match v with
  | PStr s => s
  | PInt z => py_str_int z
  end.

(** ** Module-level configuration *)

Record Party : Type := mkParty {
  name : string;
  color : string;
  base : Z
}.

Definition PARTIES : list Party :=
  [ mkParty "Alpha" "#1f77b4" 120;
    mkParty "Beta" "#ff7f0e" 100;
    mkParty "Gamma" "#2ca02c" 80 ].

Definition YEARS : list string := ["2020"; "2024"].

(** ** The random source

    [random.Random()] is modelled by the stream of raw values it will
    deliver; [randint a b] is [a + _randbelow (b - a + 1)], and
    [_randbelow n] is some value of [0 .. n-1], here the raw value reduced
    modulo [n].  Both call sites use a non-empty range (widths 11 and 6). *)

Record Random : Type := mkRandom {
  entropy : nat → N;
  cursor : nat
}.

Definition State (S A : Type) : Type := S → A * S.

Definition sret {S A} (a : A) : State S A := λ s, (a, s).
Definition sbind {S A B} (m : State S A) (k : A → State S B) : State S B :=
  λ s, let '(a, s') := m s in k a s'.

Notation "'let*' x ':=' m 'in' k" := (sbind m (λ x, k))
  (at level 10, x name, m at level 100, k at level 200).

Definition randbelow (n : Z) : State Random Z :=
  λ g, (Z.of_N (entropy g (cursor g)) mod n,
        mkRandom (entropy g) (S (cursor g))).

Definition randint (a b : Z) : State Random Z :=
  let* k := randbelow (b - a + 1) in sret (a + k).

(** ** new_random_snapshot *)

Abbreviation Row := (gmap string pyval).

Definition seats_key (y : string) : string := y +:+ "_Seats".
Definition leads_key (y : string) : string := y +:+ "_Leads".

(** One iteration of the inner [for y in YEARS] loop. *)
Definition fill_year (p : Party) (row : Row) (y : string) : State Random Row :=
  let* delta := randint (-5) 5 in
  let seats := Z.max 0 (base p + delta) in
  let* leads := randint 0 5 in
  sret (<[leads_key y := PInt leads]> (<[seats_key y := PInt seats]> row)).

Fixpoint fill_years (p : Party) (row : Row) (ys : list string) : State Random Row :=
  match ys with
  | [] => sret row
  | y :: ys' => let* row' := fill_year p row y in fill_years p row' ys'
  end.

(** One iteration of the outer [for p in PARTIES] loop. *)
Definition party_row (p : Party) : State Random Row :=
  fill_years p (<["Color" := PStr (color p)]> (<["Party" := PStr (name p)]> ∅)) YEARS.

Fixpoint snapshot_rows (ps : list Party) (rows : list Row) : State Random (list Row) :=
  match ps with
  | [] => sret rows
  | p :: ps' => let* row := party_row p in snapshot_rows ps' (rows ++ [row])
  end.

Definition new_random_snapshot : State Random (list Row) :=
  snapshot_rows PARTIES [].

(** What a generated row holds for one year of one party: a seat count
    [max 0 (base + delta)] for some perturbation [delta] of [-5 .. 5], and a
    leads count of [0 .. 5], both stored as integers. *)
Definition yearly_result (p : Party) (row : Row) (y : string) : Prop :=
  ∃ delta leads : Z,
    -5 ≤ delta ≤ 5 ∧ 0 ≤ leads ≤ 5 ∧
    row !! seats_key y = Some (PInt (Z.max 0 (base p + delta))) ∧
    row !! leads_key y = Some (PInt leads).

(** The shape of the row generated for party [p]. *)
Definition row_of (p : Party) (row : Row) : Prop :=
  row !! "Party" = Some (PStr (name p)) ∧
  row !! "Color" = Some (PStr (color p)) ∧
  ∀ y, y ∈ YEARS → yearly_result p row y.

(** What the program takes from its platform and leaves uninterpreted here.
    [ROOT] is the directory of the script
    ([Path(__file__).resolve().parent]); [strftime t] is
    [time.strftime('%Y-%m-%d %H:%M:%S')] at clock value [t]; [py_repr s] is
    [repr(s)], which only shows up in the text of error messages.  The
    other fields are the texts [http.server] computes for its responses:
    the [Server] and [Date] header values, the HTML page of an error
    response (from the code, the message and the explanation), the content
    type guessed for a path, the [Last-Modified] value of a file, whether a
    file is unchanged since the time an [If-Modified-Since] header names,
    the HTML page listing a directory (from the request path and the file
    names), the [Location] a directory request is redirected to, and the
    name of the file-system encoding. *)
Class Platform : Type := {
  ROOT : string;
  strftime : Z → string;
  py_repr : string → string;
  version_string : string;
  date_time_string : Z → string;
  error_page : Z → string → string → list byte;
  guess_type : string → string;
  last_modified : string → string;
  not_modified_since : string → string → bool;
  listing_page : string → list string → list byte;
  redirect_location : string → string;
  filesystem_encoding : string
}.

(** ** Exceptions, the outside world and the I/O monad *)

(** The exceptions the modelled code can raise; all derive from
    [Exception].  Each carries the text [str(e)] yields. *)
Inductive pyexc : Type :=
  | OSError (msg : string)
  | ValueError (msg : string)
  | KeyError (msg : string).

Definition exc_str (e : pyexc) : string :=
  match e with
  | OSError msg | ValueError msg | KeyError msg => msg
  end.

(** The state outside the program.  [files] maps a path to the bytes stored
    there; [dirs] are the paths that are directories; [faults] holds the
    outcome the operating system gives to each upcoming file-system call
    ([None]: it succeeds, [Some msg]: it fails with [OSError msg]; an
    exhausted list means success); [stdout] and [stderr] collect the lines
    printed; [clock] is the current time and [stop_at] the time at which the
    main thread sets the stop event, if it ever does; [entropy_source]
    numbers the generators [random.Random()] will return and [seeded]
    records the times at which one was asked for. *)
Record World : Type := mkWorld {
  files : gmap string (list byte);
  dirs : gset string;
  faults : list (option string);
  stdout : list string;
  stderr : list string;
  clock : Z;
  stop_at : option Z;
  entropy_source : nat → Random;
  seeded : list Z
}.

(** Computations over a state [S] that return or raise. *)
Definition Exn (S A : Type) : Type := S → (pyexc + A) * S.

Abbreviation IO := (Exn World).

Definition ret {S A} (a : A) : Exn S A := λ s, (inr a, s).
Definition raise {S A} (e : pyexc) : Exn S A := λ s, (inl e, s).
Definition bind {S A B} (m : Exn S A) (k : A → Exn S B) : Exn S B :=
  λ s, match m s with
       | (inr a, s') => k a s'
       | (inl e, s') => (inl e, s')
       end.
(** [try: m  except Exception as e: h e] *)
Definition try_except {S A} (m : Exn S A) (h : pyexc → Exn S A) : Exn S A :=
  λ s, match m s with
       | (inr a, s') => (inr a, s')
       | (inl e, s') => h e s'
       end.
(** Lift a computation that only raises or returns. *)
Definition lift {S A} (r : pyexc + A) : Exn S A := λ s, (r, s).

Notation "'let!' x ':=' m 'in' k" := (bind m (λ x, k))
  (at level 10, x name, m at level 100, k at level 200).

Definition set_files (f : gmap string (list byte)) (w : World) : World :=
  mkWorld f (dirs w) (faults w) (stdout w) (stderr w) (clock w) (stop_at w)
    (entropy_source w) (seeded w).
Definition set_faults (l : list (option string)) (w : World) : World :=
  mkWorld (files w) (dirs w) l (stdout w) (stderr w) (clock w) (stop_at w)
    (entropy_source w) (seeded w).
Definition set_clock (t : Z) (w : World) : World :=
  mkWorld (files w) (dirs w) (faults w) (stdout w) (stderr w) t (stop_at w)
    (entropy_source w) (seeded w).

(** [print(line, flush=True)] and [print(line, file=sys.stderr, flush=True)] *)
Definition print (line : string) : IO unit :=
  λ w, (inr (), mkWorld (files w) (dirs w) (faults w) (stdout w ++ [line])
                        (stderr w) (clock w) (stop_at w)
                        (entropy_source w) (seeded w)).
Definition print_err (line : string) : IO unit :=
  λ w, (inr (), mkWorld (files w) (dirs w) (faults w) (stdout w)
                        (stderr w ++ [line]) (clock w) (stop_at w)
                        (entropy_source w) (seeded w)).

(** [random.Random()]: the next generator of the entropy source. *)
Definition fresh_random : IO Random :=
  λ w, (inr (entropy_source w (length (seeded w))),
        mkWorld (files w) (dirs w) (faults w) (stdout w) (stderr w) (clock w)
                (stop_at w) (entropy_source w) (seeded w ++ [clock w])).

(** Opening [path] for writing: the operating system may refuse (the next
    entry of [faults]), a directory cannot be opened as a file, and
    otherwise the file exists and is empty afterwards. *)
Definition open_w (path : string) : IO unit :=
  λ w, match faults w with
       | Some msg :: rest => (inl (OSError msg), set_faults rest w)
       | _ =>
         let w1 := set_faults (tail (faults w)) w in
         if decide (path ∈ dirs w) then (inl (OSError "Is a directory"), w1)
         else (inr (), set_files (<[path := []]> (files w)) w1)
       end.

(** [f.write(data)] on a file opened by [open_w]. *)
Definition file_write (path : string) (data : list byte) : IO unit :=
  λ w, (inr (), set_files (<[path := default [] (files w !! path) ++ data]> (files w)) w).

Definition encode_utf8 (s : string) : list byte := String.list_byte_of_string s.
Definition decode_utf8 (b : list byte) : string := String.string_of_list_byte b.

(** [Path.write_text(text, encoding="utf-8")] and [Path.write_bytes(data)]. *)
Definition write_bytes (path : string) (data : list byte) : IO unit :=
  let! _ := open_w path in file_write path data.
Definition write_text (path : string) (text : string) : IO unit :=
  write_bytes path (encode_utf8 text).

(** ** Paths *)

(** [s.endswith(c)] for a character. *)
Fixpoint ends_with (c : ascii) (s : string) : bool :=
  match s with
  | "" => false
  | String d "" => (d =? c)%char
  | String _ s' => ends_with c s'
  end.

Definition ends_with_slash (s : string) : bool := ends_with "/" s.

(** [os.path.join dir name] (POSIX) for a relative [name]; for the
    directories used here it is also [Path(dir) / name]. *)
Definition path_join (dir name : string) : string :=
  if ends_with_slash dir then dir +:+ name else dir +:+ "/" +:+ name.

Section Paths.
Context {platform : Platform}.

Definition CSV_PATH : string := path_join ROOT "data.csv".
Definition JSON_PATH : string := path_join ROOT "data.json".
End Paths.

(** ** Computations that return or raise *)

Definition Result (A : Type) : Type := (pyexc + A)%type.

Definition rbind {A B} (m : Result A) (k : A → Result B) : Result B :=
  match m with
  | inr a => k a
  | inl e => inl e
  end.

Notation "'let?' x ':=' m 'in' k" := (rbind m (λ x, k))
  (at level 10, x name, m at level 100, k at level 200).

(** [[f x for x in l]] where [f] may raise: elements are evaluated left to
    right and the first exception wins. *)
Fixpoint rmap {A B} (f : A → Result B) (l : list A) : Result (list B) :=
  match l with
  | [] => inr []
  | x :: l' => let? y := f x in let? ys := rmap f l' in inr (y :: ys)
  end.

(** ** Character and string helpers *)

Definition dquote : ascii := "034".
Definition backslash : ascii := "092".
Definition CR : ascii := "013".
Definition LF : ascii := "010".

Definition str1 (c : ascii) : string := String c "".

(** [s.rstrip(chars)]: drop the longest suffix made of characters
    satisfying [p]. *)
Fixpoint rstrip_with (p : ascii → bool) (s : string) : string :=
  match s with
  | "" => ""
  | String c s' =>
    match rstrip_with p s' with
    | "" => if p c then "" else str1 c
    | r => String c r
    end
  end.

Fixpoint lstrip_with (p : ascii → bool) (s : string) : string :=
  match s with
  | "" => ""
  | String c s' => if p c then lstrip_with p s' else s
  end.

Fixpoint string_forall (p : ascii → bool) (s : string) : bool :=
  match s with
  | "" => true
  | String c s' => p c && string_forall p s'
  end.

Definition is_py_space (c : ascii) : bool :=
  match c with
  | " " | "009" | "010" | "011" | "012" | "013" => true
  | _ => false
  end%char.

Definition is_digit (c : ascii) : bool :=
  match c with
  | "0" | "1" | "2" | "3" | "4" | "5" | "6" | "7" | "8" | "9" => true
  | _ => false
  end%char.

(** Digits of an integer literal with the single underscores Python allows
    between digits removed; [None] when an underscore is misplaced or a
    character is not a digit.  [prev] tells whether the previous character
    was a digit. *)
Fixpoint literal_digits (prev : bool) (s : string) : option string :=
  match s with
  | "" => if prev then Some "" else None
  | String c s' =>
    if is_digit c then String c <$> literal_digits true s'
    else if (c =? "_")%char then
      if prev then
        match s' with
        | "" => None
        | String d _ => if is_digit d then literal_digits false s' else None
        end
      else None
    else None
  end.

(** [int(s)] for a string (base 10): surrounding white space is ignored, a
    sign may precede the digits. *)
Definition py_int_of_string (s : string) : option Z :=
  let t := rstrip_with is_py_space (lstrip_with is_py_space s) in
  let '(negative, body) :=
    match t with
    | String "-" r => (true, r)
    | String "+" r => (false, r)
    | _ => (false, t)
    end in
  ds ← literal_digits false body;
  n ← NilEmpty.uint_of_string ds;
  Some (if negative : bool then - Z.of_uint n else Z.of_uint n).

Section Values.
Context {platform : Platform}.

Definition py_int_str (s : string) : Result Z :=
match py_int_of_string s with
| Some z => inr z
| None => inl (ValueError ("invalid literal for int() with base 10: " +:+ py_repr s))
end.

(** [int(v)] *)
Definition py_int (v : pyval) : Result Z :=
match v with
| PInt z => inr z
| PStr s => py_int_str s
end.
End Values.

(** ** The csv writer (excel dialect, minimal quoting) *)

Module Csv.

(** A character that forces a field to be quoted: the delimiter, the quote
character, or a character of the line terminator. *)
Definition special (c : ascii) : bool :=
(c =? ",")%char || (c =? dquote)%char || (c =? CR)%char || (c =? LF)%char.

Fixpoint has_special (s : string) : bool :=
match s with
| "" => false
| String c s' => special c || has_special s'
end.

(** Quote characters inside a quoted field are doubled. *)
Fixpoint escape (s : string) : string :=
match s with
| "" => ""
| String c s' =>
if (c =? dquote)%char then String dquote (String dquote (escape s'))
else String c (escape s')
end.

Definition field (s : string) : string :=
if has_special s then str1 dquote +:+ escape s +:+ str1 dquote else s.

Definition lineterminator : string := String CR (String LF "").

(** [writer.writerow(fields)]: the text of one record.  A record made of a
single empty field is written as a pair of quotes. *)
Definition record (fields : list string) : string :=
match fields with
| [""] => String dquote (String dquote lineterminator)
| _ => String.concat "," (field <$> fields) +:+ lineterminator
end.

(** [DictWriter._dict_to_list] with [extrasaction="raise"]. *)
Definition dict_to_list (fieldnames : list string) (restval : pyval)
(rowdict : Row) : Result (list pyval) :=
if bool_decide (dom rowdict ⊆ list_to_set fieldnames)
then inr ((λ key, default restval (rowdict !! key)) <$> fieldnames)
else inl (ValueError "dict contains fields not in fieldnames").

(** [DictWriter(f, fieldnames=fieldnames).writerow(rowdict)] *)
Definition writerow (fieldnames : list string) (rowdict : Row) : Result string :=
let? values := dict_to_list fieldnames (PStr "") rowdict in
inr (record (py_str <$> values)).

(** [DictWriter.writeheader]: the row [dict(zip(fieldnames, fieldnames))]. *)
Definition writeheader (fieldnames : list string) : Result string :=
writerow fieldnames (list_to_map (zip fieldnames (PStr <$> fieldnames))).

(** *** Reading a csv file back

A reader for the same dialect, as a consumer of the tabular file would
run it: a state machine over the characters of the text, after
[csv.reader]. *)

Inductive rstate : Type :=
| StartRecord | StartField | InField | InQuoted | QuoteInQuoted | AfterCR.

(** One character: the next state, the field read so far, the fields of
the record so far, and the record completed by this character, if any. *)
Definition step_main (st : rstate) (cur : string) (rec : list string)
(c : ascii) : rstate * string * list string * option (list string) :=
let end_record (fields : list string) :=
(if (c =? CR)%char then AfterCR else StartRecord, "", [], Some fields) in
match st with
| StartRecord | StartField | AfterCR =>
if (c =? CR)%char || (c =? LF)%char then
  match st with
  | StartField => end_record (rec ++ [""])
  | _ => end_record []
  end
else if (c =? dquote)%char then (InQuoted, "", rec, None)
else if (c =? ",")%char then (StartField, "", rec ++ [""], None)
else (InField, str1 c, rec, None)
| InField =>
if (c =? CR)%char || (c =? LF)%char then end_record (rec ++ [cur])
else if (c =? ",")%char then (StartField, "", rec ++ [cur], None)
else (InField, cur +:+ str1 c, rec, None)
| InQuoted =>
if (c =? dquote)%char then (QuoteInQuoted, cur, rec, None)
else (InQuoted, cur +:+ str1 c, rec, None)
| QuoteInQuoted =>
if (c =? dquote)%char then (InQuoted, cur +:+ str1 dquote, rec, None)
else if (c =? CR)%char || (c =? LF)%char then end_record (rec ++ [cur])
else if (c =? ",")%char then (StartField, "", rec ++ [cur], None)
else (InField, cur +:+ str1 c, rec, None)
end.

(** A line feed right after a carriage return belongs to the same line
terminator. *)
Definition step (st : rstate) (cur : string) (rec : list string)
(c : ascii) : rstate * string * list string * option (list string) :=
match st with
| AfterCR => if (c =? LF)%char then (StartRecord, "", [], None)
           else step_main st cur rec c
| _ => step_main st cur rec c
end.

Fixpoint run (st : rstate) (cur : string) (rec : list string)
(s : string) : list (list string) :=
match s with
| "" =>
match st with
| StartRecord | AfterCR => []
| _ => [rec ++ [cur]]
end
| String c s' =>
match step st cur rec c with
| (st', cur', rec', Some fields) => fields :: run st' cur' rec' s'
| (st', cur', rec', None) => run st' cur' rec' s'
end
end.

(** [list(csv.reader(f))] *)
Definition reader (text : string) : list (list string) :=
run StartRecord "" [] text.

(** [list(csv.DictReader(f))]: the first row names the columns, blank rows
are skipped, every other row becomes a dictionary. *)
Definition dict_reader (text : string)
: option (list string * list (gmap string string)) :=
match reader text with
| [] => None
| fieldnames :: rows =>
Some (fieldnames,
      (λ row, list_to_map (zip fieldnames row)) <$>
        filter (λ row, row ≠ []) rows)
end.

End Csv.

(** ** The json encoder *)

Module Json.

(** The values [json.dumps] is applied to here (and [json.loads] yields):
a [dict] keeps its items in insertion order. *)
Local Unset Elimination Schemes.
Inductive value : Type :=
| JNull
| JBool (b : bool)
| JInt (z : Z)
| JStr (s : string)
| JList (items : list value)
| JDict (items : list (string * value)).
Local Set Elimination Schemes.

(** Induction over values, through the lists they nest. *)
Section ValueInduction.
Context (P : value → Prop).
Context (Hnull : P JNull) (Hbool : ∀ b, P (JBool b)) (Hint : ∀ z, P (JInt z))
(Hstr : ∀ s, P (JStr s))
(Hlist : ∀ items, Forall P items → P (JList items))
(Hdict : ∀ items, Forall (λ kv, P kv.2) items → P (JDict items)).

Fixpoint value_ind (v : value) : P v :=
match v with
| JNull => Hnull
| JBool b => Hbool b
| JInt z => Hint z
| JStr s => Hstr s
| JList items =>
Hlist items
((fix go (l : list value) : Forall P l :=
  match l with
  | [] => @List.Forall_nil _ P
  | x :: l' => @List.Forall_cons _ P x l' (value_ind x) (go l')
  end) items)
| JDict items =>
Hdict items
((fix go (l : list (string * value)) : Forall (λ kv, P kv.2) l :=
  match l with
  | [] => @List.Forall_nil _ (λ kv, P kv.2)
  | (k, x) :: l' =>
    @List.Forall_cons _ (λ kv, P kv.2) (k, x) l' (value_ind x) (go l')
  end) items)
end.
End ValueInduction.

(** The number of values in a value, itself included, plus one for each
element of a list or dictionary. *)
Fixpoint size (v : value) : nat :=
match v with
| JList items => S (sum_list ((λ x, S (size x)) <$> items))
| JDict items => S (sum_list ((λ kv, S (size kv.2)) <$> items))
| _ => 1
end.

Definition hex_digit (n : N) : ascii :=
match n with
| 0 => "0" | 1 => "1" | 2 => "2" | 3 => "3" | 4 => "4" | 5 => "5"
| 6 => "6" | 7 => "7" | 8 => "8" | 9 => "9" | 10 => "a" | 11 => "b"
| 12 => "c" | 13 => "d" | 14 => "e" | _ => "f"
end%N%char.

(** ['\\u{0:04x}'.format(n)] *)
Definition u_escape (n : N) : string :=
String backslash (String "u"
(String (hex_digit (N.land (N.shiftr n 12) 15))
(String (hex_digit (N.land (N.shiftr n 8) 15))
(String (hex_digit (N.land (N.shiftr n 4) 15))
(String (hex_digit (N.land n 15)) ""))))).

(** [ESCAPE_DCT] restricted to the characters it names. *)
Definition short_escape (c : ascii) : option string :=
match c with
| "092" => Some (String backslash (String backslash ""))
| "034" => Some (String backslash (String dquote ""))
| "008" => Some (String backslash "b")
| "012" => Some (String backslash "f")
| "010" => Some (String backslash "n")
| "013" => Some (String backslash "r")
| "009" => Some (String backslash "t")
| _ => None
end%char.

(** One character under [ESCAPE.sub(replace, s)]: quote, backslash and the
control characters below 0x20 are replaced, the rest is kept. *)
Definition escape_char (c : ascii) : string :=
match short_escape c with
| Some e => e
| None => if (N_of_ascii c <? 32)%N then u_escape (N_of_ascii c) else str1 c
end.

Fixpoint escape (s : string) : string :=
match s with
| "" => ""
| String c s' => escape_char c +:+ escape s'
end.

(** [py_encode_basestring], used with [ensure_ascii=False]. *)
Definition encode_basestring (s : string) : string :=
String dquote (escape s +:+ str1 dquote).

(** The code points of a string held as UTF-8 bytes (Python strings are
sequences of code points; ill-formed input cannot occur and is read
byte by byte). *)
Fixpoint code_points (s : string) : list N :=
let cont (c : ascii) : N := N.land (N_of_ascii c) 63 in
match s with
| "" => []
| String c0 s1 =>
let b := N_of_ascii c0 in
if (b <? 192)%N then b :: code_points s1
else
  match s1 with
  | "" => [b]
  | String c1 s2 =>
    if (b <? 224)%N then
      N.lor (N.shiftl (N.land b 31) 6) (cont c1) :: code_points s2
    else
      match s2 with
      | "" => [b; N_of_ascii c1]
      | String c2 s3 =>
        if (b <? 240)%N then
          N.lor (N.shiftl (N.land b 15) 12)
            (N.lor (N.shiftl (cont c1) 6) (cont c2)) :: code_points s3
        else
          match s3 with
          | "" => [b; N_of_ascii c1; N_of_ascii c2]
          | String c3 s4 =>
            N.lor (N.shiftl (N.land b 7) 18)
              (N.lor (N.shiftl (cont c1) 12)
                 (N.lor (N.shiftl (cont c2) 6) (cont c3)))
            :: code_points s4
          end
      end
  end
end.

(** One code point under [ESCAPE_ASCII.sub(replace, s)]: everything
outside [' ' .. '~'], and quote and backslash, is escaped; code points
beyond the basic plane become a surrogate pair. *)
Definition escape_ascii_point (n : N) : string :=
match (if (n <? 128)%N then short_escape (ascii_of_N n) else None) with
| Some e => e
| None =>
if ((32 <=? n) && (n <=? 126))%N then str1 (ascii_of_N n)
else if (n <? 65536)%N then u_escape n
else
  let m := (n - 65536)%N in
  u_escape (N.lor 55296 (N.land (N.shiftr m 10) 1023)) +:+
  u_escape (N.lor 56320 (N.land m 1023))
end.

(** [py_encode_basestring_ascii], used with [ensure_ascii=True]. *)
Definition encode_basestring_ascii (s : string) : string :=
String dquote
(String.concat "" (escape_ascii_point <$> code_points s) +:+ str1 dquote).

(** The options of [json.dumps] that the program sets. *)
Record options : Type := mkOptions {
ensure_ascii : bool;
indent : option nat
}.

(** [json.dumps(obj)] and [json.dumps(obj, ensure_ascii=False, indent=2)] *)
Definition defaults : options := mkOptions true None.
Definition pretty : options := mkOptions false (Some 2%nat).

Definition spaces (n : nat) : string := String.concat "" (replicate n " ").

Section Encoder.
Context (o : options).

Definition encoder (s : string) : string :=
if ensure_ascii o then encode_basestring_ascii s else encode_basestring s.

(** ['\n' + _indent * level], or nothing without indentation. *)
Definition newline_indent (level : nat) : string :=
match indent o with
| Some n => String LF (spaces (n * level))
| None => ""
end.

(** [', '] by default and [','] when an indentation is given. *)
Definition item_separator : string :=
match indent o with
| Some _ => ","
| None => ", "
end.

Definition key_separator : string := ": ".

(** [_iterencode], with the chunks it yields concatenated. *)
Fixpoint iterencode (v : value) (level : nat) : string :=
match v with
| JNull => "null"
| JBool true => "true"
| JBool false => "false"
| JInt z => py_str_int z
| JStr s => encoder s
| JList [] => "[]"
| JList items =>
"[" +:+ newline_indent (S level) +:+
String.concat (item_separator +:+ newline_indent (S level))
((λ x, iterencode x (S level)) <$> items) +:+
newline_indent level +:+ "]"
| JDict [] => "{}"
| JDict items =>
"{" +:+ newline_indent (S level) +:+
String.concat (item_separator +:+ newline_indent (S level))
((λ kv, encoder kv.1 +:+ key_separator +:+ iterencode kv.2 (S level))
 <$> items) +:+
newline_indent level +:+ "}"
end.
End Encoder.

Definition dumps (o : options) (obj : value) : string := iterencode o obj 0.

(** *** Reading a json document back

A decoder for the documents the encoder writes, as a consumer of the
structured file would run it (after [json.loads]; floats and escapes
of code points beyond 0x7f, which the files written with
[ensure_ascii=False] never contain, are not decoded). *)

Definition is_ws (c : ascii) : bool :=
match c with
| " " | "009" | "010" | "013" => true
| _ => false
end%char.

Fixpoint skip_ws (s : string) : string :=
match s with
| "" => ""
| String c s' => if is_ws c then skip_ws s' else s
end.

(** The position of a character in a text, counted from [i]. *)
Fixpoint find_char (c : ascii) (s : string) (i : N) : option N :=
match s with
| "" => None
| String d s' => if (c =? d)%char then Some i else find_char c s' (N.succ i)
end.

(** The value of a hexadecimal digit, in either case. *)
Definition hex_value (c : ascii) : option N :=
match find_char c "0123456789abcdef" 0 with
| Some n => Some n
| None => find_char c "ABCDEF" 10
end.

Definition unescape (e : ascii) : option ascii :=
match e with
| "034" => Some dquote
| "092" => Some backslash
| "/" => Some "/"
| "b" => Some "008"
| "f" => Some "012"
| "n" => Some "010"
| "r" => Some "013"
| "t" => Some "009"
| _ => None
end%char.

Definition cons_char (c : ascii) (r : option (string * string))
: option (string * string) :=
match r with
| Some (str, rest) => Some (String c str, rest)
| None => None
end.

(** The characters of a string literal after its opening quote, and the
text after its closing quote. *)
Fixpoint scan_string (s : string) : option (string * string) :=
match s with
| "" => None
| String c r =>
if (c =? dquote)%char then Some ("", r)
else if (c =? backslash)%char then
  match r with
  | String "u" (String h1 (String h2 (String h3 (String h4 r')))) =>
    match hex_value h1, hex_value h2, hex_value h3, hex_value h4 with
    | Some a, Some b, Some c', Some d =>
      let n := (((a * 16 + b) * 16 + c') * 16 + d)%N in
      if (n <? 128)%N then cons_char (ascii_of_N n) (scan_string r')
      else None
    | _, _, _, _ => None
    end
  | String e r' =>
    match unescape e with
    | Some c' => cons_char c' (scan_string r')
    | None => None
    end
  | "" => None
  end
else if (N_of_ascii c <? 32)%N then None
else cons_char c (scan_string r)
end.

(** The longest run of digits at the head of a text, and what follows. *)
Fixpoint span_digits (s : string) : string * string :=
match s with
| "" => ("", "")
| String c r =>
if is_digit c then let '(ds, rest) := span_digits r in (String c ds, rest)
else ("", s)
end.

(** A number must not run on into a fraction or an exponent. *)
Definition ends_number (rest : string) : bool :=
match rest with
| String c _ =>
negb (is_digit c || (c =? ".")%char || (c =? "e")%char || (c =? "E")%char)
| "" => true
end.

Definition scan_nat (s : string) : option (Z * string) :=
let '(ds, rest) := span_digits s in
match ds with
| "" => None
| _ =>
if ends_number rest then
  n ← NilEmpty.uint_of_string ds; Some (Z.of_uint n, rest)
else None
end.

Definition scan_int (s : string) : option (Z * string) :=
match s with
| String "-" r => '(n, rest) ← scan_nat r; Some (- n, rest)
| _ => scan_nat s
end.

(** The text after the closing bracket [close], when the text starts with
it. *)
Definition at_closer (close : ascii) (s : string) : option string :=
match s with
| String c r => if (c =? close)%char then Some r else None
| "" => None
end.

(** [scan_value], [scan_items] and [scan_members] expect their input to
start at the first character of a value, of the first remaining
element, and of the first remaining key.  [fuel] bounds the number of
values that may still be opened. *)
Fixpoint scan_value (fuel : nat) (s : string) : option (value * string) :=
match fuel with
| O => None
| S n =>
match s with
| String "[" r =>
  match at_closer "]" (skip_ws r) with
  | Some r' => Some (JList [], r')
  | None =>
    '(items, rest) ← scan_items n (skip_ws r); Some (JList items, rest)
  end
| String "{" r =>
  match at_closer "}" (skip_ws r) with
  | Some r' => Some (JDict [], r')
  | None =>
    '(items, rest) ← scan_members n (skip_ws r); Some (JDict items, rest)
  end
| String "034" r => '(str, rest) ← scan_string r; Some (JStr str, rest)
| String "n" r =>
  match r with
  | String "u" (String "l" (String "l" rest)) => Some (JNull, rest)
  | _ => None
  end
| String "t" r =>
  match r with
  | String "r" (String "u" (String "e" rest)) => Some (JBool true, rest)
  | _ => None
  end
| String "f" r =>
  match r with
  | String "a" (String "l" (String "s" (String "e" rest))) =>
    Some (JBool false, rest)
  | _ => None
  end
| _ => '(z, rest) ← scan_int s; Some (JInt z, rest)
end
end
with scan_items (fuel : nat) (s : string) : option (list value * string) :=
match fuel with
| O => None
| S n =>
'(v, r) ← scan_value n s;
match skip_ws r with
| String "," r' =>
  '(vs, rest) ← scan_items n (skip_ws r'); Some (v :: vs, rest)
| String "]" r' => Some ([v], r')
| _ => None
end
end
with scan_members (fuel : nat) (s : string)
: option (list (string * value) * string) :=
match fuel with
| O => None
| S n =>
match s with
| String "034" r0 =>
  '(key, r1) ← scan_string r0;
  match skip_ws r1 with
  | String ":" r2 =>
    '(v, r3) ← scan_value n (skip_ws r2);
    match skip_ws r3 with
    | String "," r4 =>
      '(kvs, rest) ← scan_members n (skip_ws r4); Some ((key, v) :: kvs, rest)
    | String "}" r4 => Some ([(key, v)], r4)
    | _ => None
    end
  | _ => None
  end
| _ => None
end
end.

(** [json.loads(text)] *)
Definition loads (text : string) : option value :=
'(v, rest) ← scan_value (String.length text) (skip_ws text);
match skip_ws rest with
| "" => Some v
| _ => None
end.

(** [obj[key]] on a decoded dictionary (the last of equal keys wins). *)
Definition get (key : string) (obj : value) : option value :=
match obj with
| JDict items => snd <$> last (filter (λ kv, kv.1 = key) items)
| _ => None
end.

End Json.

(** ** write_csv_and_json *)

Section Writer.
Context {platform : Platform}.

(** [["Party", "Color"] + [f"{y}_{suf}" for y in YEARS for suf in ("Seats", "Leads")]] *)
Definition headers : list string :=
["Party"; "Color"] ++
(y ← YEARS; suf ← ["Seats"; "Leads"]; [y +:+ "_" +:+ suf]).

(** [{h: r.get(h, "") for h in headers}] *)
Definition csv_rowdict (hs : list string) (r : Row) : Row :=
list_to_map ((λ h, (h, default (PStr "") (r !! h))) <$> hs).

(** [for r in rows: writer.writerow({...})] on the open file. *)
Fixpoint write_rows (hs : list string) (rows : list Row) : IO unit :=
match rows with
| [] => ret ()
| r :: rows' =>
let! line := lift (Csv.writerow hs (csv_rowdict hs r)) in
let! _ := file_write CSV_PATH (encode_utf8 line) in
write_rows hs rows'
end.

(** The [with CSV_PATH.open("w", newline="", encoding="utf-8") as f] block:
no newline translation takes place, what the writer emits is what the
file holds, also when a row raises half-way. *)
Definition write_csv (hs : list string) (rows : list Row) : IO unit :=
let! _ := open_w CSV_PATH in
let! line := lift (Csv.writeheader hs) in
let! _ := file_write CSV_PATH (encode_utf8 line) in
write_rows hs rows.

Definition json_of_pyval (v : pyval) : Json.value :=
match v with
| PStr s => Json.JStr s
| PInt z => Json.JInt z
end.

(** [{"year": y, "seats": int(r.get(f"{y}_Seats", 0)), "leads": int(r.get(f"{y}_Leads", 0))}] *)
Definition yearly_entry (r : Row) (y : string) : Result Json.value :=
let? seats := py_int (default (PInt 0) (r !! seats_key y)) in
let? leads := py_int (default (PInt 0) (r !! leads_key y)) in
inr (Json.JDict [("year", Json.JStr y); ("seats", Json.JInt seats);
               ("leads", Json.JInt leads)]).

(** [{"party": r["Party"], "yearly_results": [... for y in YEARS]}] *)
Definition party_entry (r : Row) : Result Json.value :=
let? party := match r !! "Party" with
            | Some v => inr v
            | None => inl (KeyError (py_repr "Party"))
            end in
let? results := rmap (yearly_entry r) YEARS in
inr (Json.JDict [("party", json_of_pyval party);
               ("yearly_results", Json.JList results)]).

Definition json_data (rows : list Row) : Result Json.value :=
let? parties := rmap party_entry rows in
inr (Json.JDict [("years", Json.JList (Json.JStr <$> YEARS));
               ("parties", Json.JList parties)]).

Definition write_csv_and_json (rows : list Row) : IO unit :=
let! _ := write_csv headers rows in
let! data := lift (json_data rows) in
write_text JSON_PATH (Json.dumps Json.pretty data).
End Writer.

(** ** Reading the two files back

    What a consumer extracts from each file: the (party, year, seats, leads)
    tuples.  The tabular file names the years in its [<year>_Seats]
    columns; the structured file lists them under [yearly_results]. *)

Definition result_tuple : Type := string * string * Z * Z.

(** [s.removesuffix(suf)] when [s] ends with [suf]. *)
Fixpoint strip_suffix (suf s : string) : option string :=
  if String.eqb s suf then Some ""
  else match s with
       | "" => None
       | String c s' => String c <$> strip_suffix suf s'
       end.

Definition csv_years (fieldnames : list string) : list string :=
  omap (strip_suffix "_Seats") fieldnames.

Definition csv_record_tuples (years : list string) (d : gmap string string)
    : option (list result_tuple) :=
  party ← d !! "Party";
  mapM (λ y,
          seats ← d !! seats_key y ≫= py_int_of_string;
          leads ← d !! leads_key y ≫= py_int_of_string;
          Some (party, y, seats, leads)) years.

Definition csv_tuples (text : string) : option (list result_tuple) :=
  '(fieldnames, records) ← Csv.dict_reader text;
  mjoin <$> mapM (csv_record_tuples (csv_years fieldnames)) records.

Definition as_list (v : Json.value) : option (list Json.value) :=
  match v with Json.JList items => Some items | _ => None end.
Definition as_str (v : Json.value) : option string :=
  match v with Json.JStr s => Some s | _ => None end.
Definition as_int (v : Json.value) : option Z :=
  match v with Json.JInt z => Some z | _ => None end.

Definition json_party_tuples (p : Json.value) : option (list result_tuple) :=
  party ← Json.get "party" p ≫= as_str;
  results ← Json.get "yearly_results" p ≫= as_list;
  mapM (λ yr,
          year ← Json.get "year" yr ≫= as_str;
          seats ← Json.get "seats" yr ≫= as_int;
          leads ← Json.get "leads" yr ≫= as_int;
          Some (party, year, seats, leads)) results.

Definition json_tuples (text : string) : option (list result_tuple) :=
  doc ← Json.loads text;
  parties ← Json.get "parties" doc ≫= as_list;
  mjoin <$> mapM json_party_tuples parties.

(** The tuples of the in-memory snapshot itself. *)
Definition row_tuples (r : Row) : option (list result_tuple) :=
  match r !! "Party" with
  | Some (PStr party) =>
    mapM (λ y, match r !! seats_key y, r !! leads_key y with
               | Some (PInt seats), Some (PInt leads) => Some (party, y, seats, leads)
               | _, _ => None
               end) YEARS
  | _ => None
  end.

Definition snapshot_tuples (rows : list Row) : option (list result_tuple) :=
  mjoin <$> mapM row_tuples rows.

Section Files.
Context {platform : Platform}.

(** [path.read_text(encoding="utf-8")] for an existing file. *)
Definition read_text (path : string) (w : World) : option string :=
decode_utf8 <$> files w !! path.

Definition csv_file_tuples (w : World) : option (gset result_tuple) :=
text ← read_text CSV_PATH w; list_to_set <$> csv_tuples text.

Definition json_file_tuples (w : World) : option (gset result_tuple) :=
text ← read_text JSON_PATH w; list_to_set <$> json_tuples text.
End Files.

(** ** run_updater *)

(** How far the updater got: it returned, or it is still looping when the
    observation ends. *)
Inductive progress : Type := Finished | StillRunning.

Section Updater.
Context {platform : Platform}.

(** [stop_evt.wait(timeout)]: returns [True] as soon as the event is set,
[False] once the timeout has elapsed with the event still unset; time
passes accordingly. *)
Definition event_wait (timeout : Z) : IO bool :=
λ w, let deadline := clock w + Z.max 0 timeout in
   match stop_at w with
   | Some ts =>
     if ts <=? deadline then (inr true, set_clock (Z.max (clock w) ts) w)
     else (inr false, set_clock deadline w)
   | None => (inr false, set_clock deadline w)
   end.

Definition now : IO Z := λ w, (inr (clock w), w).

(** [rows = new_random_snapshot(); write_csv_and_json(rows);
 print(f"[{time.strftime(...)}] {what}", flush=True)] *)
Definition generate (what : string) : IO unit :=
let! g := fresh_random in
let rows := (new_random_snapshot g).1 in
let! _ := write_csv_and_json rows in
let! t := now in
print ("[" +:+ strftime t +:+ "] " +:+ what).

(** The [while not stop_evt.wait(interval)] loop, observed for at most
[fuel] waits. *)
Fixpoint updater_loop (fuel : nat) (interval : Z) : IO progress :=
match fuel with
| O => ret StillRunning
| S n =>
let! stopped := event_wait interval in
if stopped : bool then ret Finished
else
  let! _ := try_except (generate "Data updated")
              (λ e, print_err ("WARNING: Failed to update data: " +:+ exc_str e)) in
  updater_loop n interval
end.

Definition run_updater (fuel : nat) (interval : Z) : IO progress :=
let! _ := generate "Data initialized" in
updater_loop fuel interval.
End Updater.

(** The parts of the world that writing files and printing leave alone. *)
Definition same_schedule (w w' : World) : Prop :=
  clock w' = clock w ∧ stop_at w' = stop_at w ∧
  entropy_source w' = entropy_source w ∧ seeded w' = seeded w.

Definition keeps_schedule {A} (m : IO A) : Prop :=
  ∀ w, same_schedule w (m w).2.

(** ** The request handler *)

(** Reading an existing file ([open(path, 'rb')] and the copy that
    follows): the operating system may refuse, and a path that holds no
    file cannot be opened. *)
Definition open_r (path : string) : IO (list byte) :=
  λ w, match faults w with
       | Some msg :: rest => (inl (OSError msg), set_faults rest w)
       | _ =>
         let w1 := set_faults (tail (faults w)) w in
         match files w !! path with
         | Some data => (inr data, w1)
         | None => (inl (OSError "No such file or directory"), w1)
         end
       end.

Definition is_slash (c : ascii) : bool := (c =? "/")%char.

(** [os.path.isdir(path)] and [os.path.isfile(path)] *)
Definition isdir (path : string) (w : World) : bool :=
  bool_decide (rstrip_with is_slash path ∈ dirs w).
Definition isfile (path : string) (w : World) : bool :=
  bool_decide (is_Some (files w !! path)).

(** [s.split(c, 1)[0]] *)
Fixpoint cut_at (c : ascii) (s : string) : string :=
  match s with
  | "" => ""
  | String d s' => if (d =? c)%char then "" else String d (cut_at c s')
  end.

(** [s.split(c)], with the piece collected so far in [cur]. *)
Fixpoint split_on (c : ascii) (cur : string) (s : string) : list string :=
  match s with
  | "" => [cur]
  | String d s' =>
    if (d =? c)%char then cur :: split_on c "" s'
    else split_on c (cur +:+ str1 d) s'
  end.

(** [os.listdir(path)]: the names directly below a directory. *)
Definition name_below (dir : string) (path : string) : option string :=
  let prefix := if ends_with_slash dir then dir else dir +:+ "/" in
  if String.prefix prefix path then
    let name := String.substring (String.length prefix)
                  (String.length path - String.length prefix) path in
    match split_on "/" "" name with
    | [n] => if String.eqb n "" then None else Some n
    | _ => None
    end
  else None.

Definition listdir (dir : string) : IO (list string) :=
  λ w, match faults w with
       | Some msg :: rest => (inl (OSError msg), set_faults rest w)
       | _ =>
         (inr (omap (name_below dir)
                 ((map_to_list (files w)).*1 ++ elements (dirs w))),
          set_faults (tail (faults w)) w)
       end.

(** [urllib.parse.unquote]: [%xx] escapes become the byte they name. *)
Fixpoint unquote (s : string) : string :=
  match s with
  | "" => ""
  | String c r =>
    match (if (c =? "%")%char then
             match r with
             | String a (String b r') =>
               match Json.hex_value a, Json.hex_value b with
               | Some x, Some y => Some (ascii_of_N (16 * x + y), unquote r')
               | _, _ => None
               end
             | _ => None
             end
           else None) with
    | Some (byte, rest) => String byte rest
    | None => String c (unquote r)
    end
  end.

(** The components [posixpath.normpath] keeps, most recent first. *)
Fixpoint norm_components (absolute : bool) (kept : list string)
    (comps : list string) : list string :=
  match comps with
  | [] => kept
  | comp :: comps' =>
    if bool_decide (comp = "" ∨ comp = ".") then
      norm_components absolute kept comps'
    else if bool_decide (comp ≠ ".." ∨ (absolute = false ∧ kept = []) ∨
                         head kept = Some "..")
    then norm_components absolute (comp :: kept) comps'
    else norm_components absolute (tail kept) comps'
  end.

(** *** Requests, responses and the handler object *)

Module Http.

Record Request : Type := mkRequest {
command : string;
path : string;
request_version : string;
headers : list (string * string)
}.

(** What the handler writes to the connection: the status line and the
header lines of a response, flushed together, and pieces of body. *)
Inductive hline : Type :=
| StatusLine (version : string) (code : Z) (message : string)
| HeaderLine (keyword value : string).

Inductive chunk : Type :=
| Head (lines : list hline)
| Body (data : list byte).

(** The handler object serving one request: the parsed request, the bytes
still unread on the connection, the header buffer and what has been
written to the connection. *)
Record Handler : Type := mkHandler {
request : Request;
rfile : list byte;
headers_buffer : list hline;
wfile : list chunk
}.

(** A handler at work, and the world it works in. *)
Record Session : Type := mkSession {
handler : Handler;
world : World
}.

Definition self : Exn Session Handler := λ s, (inr (handler s), s).

Definition update (f : Handler → Handler) : Exn Session unit :=
λ s, (inr (), mkSession (f (handler s)) (world s)).

Definition in_world {A} (m : IO A) : Exn Session A :=
λ s, let '(r, w') := m (world s) in (r, mkSession (handler s) w').

(** [http.HTTPStatus]: the short and long message of a status code. *)
Definition responses (code : Z) : option (string * string) :=
match code with
| 200 => Some ("OK", "Request fulfilled, document follows")
| 301 => Some ("Moved Permanently", "Object moved permanently -- see URI list")
| 304 => Some ("Not Modified", "Document has not changed since given time")
| 400 => Some ("Bad Request", "Bad request syntax or unsupported method")
| 404 => Some ("Not Found", "Nothing matches the given URI")
| 500 => Some ("Internal Server Error", "Server got itself in trouble")
| 501 => Some ("Not Implemented", "Server does not support this operation")
| _ => None
end.

Definition to_lower (c : ascii) : ascii :=
let n := N_of_ascii c in
if ((65 <=? n) && (n <=? 90))%N then ascii_of_N (n + 32) else c.

Fixpoint lower (s : string) : string :=
match s with
| "" => ""
| String c s' => String (to_lower c) (lower s')
end.

(** [message.get(name, default)]: header names compare without regard to
case, the first match wins. *)
Fixpoint header_get (name default : string) (hs : list (string * string))
: string :=
match hs with
| [] => default
| (k, v) :: hs' =>
if String.eqb (lower k) (lower name) then v else header_get name default hs'
end.

Definition has_header (name : string) (hs : list (string * string)) : bool :=
existsb (λ kv, String.eqb (lower kv.1) (lower name)) hs.

End Http.

Module NoCacheRequestHandler.
Import Http.
Section Methods.
Context {platform : Platform}.

Definition protocol_version : string := "HTTP/1.0".
Definition error_content_type : string := "text/html;charset=utf-8".

(** Nothing but the body is sent in answer to an HTTP/0.9 request: the
base class guards every write to the header buffer, and the flush of it,
by [self.request_version != 'HTTP/0.9']. *)
Definition sends_headers (h : Handler) : bool :=
negb (String.eqb (request_version (request h)) "HTTP/0.9").

Definition append_line (l : hline) (h : Handler) : Handler :=
if sends_headers h
then mkHandler (request h) (rfile h) (headers_buffer h ++ [l]) (wfile h)
else h.

(** [BaseHTTPRequestHandler.send_response_only] *)
Definition send_response_only (code : Z) (message : option string)
: Exn Session unit :=
let phrase := match message with
        | Some m => m
        | None => from_option fst "" (responses code)
        end in
update (append_line (StatusLine protocol_version code phrase)).

(** [BaseHTTPRequestHandler.send_header] *)
Definition send_header (keyword value : string) : Exn Session unit :=
update (append_line (HeaderLine keyword value)).

(** [BaseHTTPRequestHandler.send_response] *)
Definition send_response (code : Z) (message : option string)
: Exn Session unit :=
let! _ := send_response_only code message in
let! _ := send_header "Server" version_string in
let! t := in_world now in
send_header "Date" (date_time_string t).

(** [BaseHTTPRequestHandler.end_headers], with [flush_headers]. *)
Definition base_end_headers : Exn Session unit :=
update (λ h,
if sends_headers h
then mkHandler (request h) (rfile h) [] (wfile h ++ [Head (headers_buffer h)])
else h).

(** [NoCacheRequestHandler.end_headers] *)
Definition end_headers : Exn Session unit :=
let! _ := send_header "Cache-Control"
      "no-store, no-cache, must-revalidate, max-age=0" in
let! _ := send_header "Pragma" "no-cache" in
let! _ := send_header "Access-Control-Allow-Origin" "*" in
base_end_headers.

(** [self.wfile.write(body)] *)
Definition wfile_write (body : list byte) : Exn Session unit :=
update (λ h, mkHandler (request h) (rfile h) (headers_buffer h)
         (wfile h ++ [Body body])).

(** [self.rfile.read(n)]: the next [n] bytes, fewer at the end of input. *)
Definition rfile_read (n : Z) : Exn Session (list byte) :=
λ s, let h := handler s in
(inr (take (Z.to_nat n) (rfile h)),
mkSession (mkHandler (request h) (drop (Z.to_nat n) (rfile h))
             (headers_buffer h) (wfile h))
          (world s)).

Definition content_length (body : list byte) : string :=
py_str_int (Z.of_nat (length body)).

(** [BaseHTTPRequestHandler.send_error] *)
Definition send_error (code : Z) (message explain : option string)
: Exn Session unit :=
let shortmsg := from_option fst "???" (responses code) in
let longmsg := from_option snd "???" (responses code) in
let message := default shortmsg message in
let explain := default longmsg explain in
let! _ := send_response code (Some message) in
let! _ := send_header "Connection" "close" in
let body :=
if (200 <=? code) && negb (bool_decide (code ∈ [204; 205; 304]))
then Some (error_page code message explain) else None in
let! _ := match body with
    | Some b =>
      let! _ := send_header "Content-Type" error_content_type in
      send_header "Content-Length" (content_length b)
    | None => ret ()
    end in
let! _ := end_headers in
let! h := self in
match body with
| Some b =>
if negb (String.eqb (command (request h)) "HEAD") && negb (bool_decide (b = []))
then wfile_write b else ret ()
| None => ret ()
end.

(** [out_path = ROOT / "superdynamic - embed.html"] *)
Definition out_path : string := path_join ROOT "superdynamic - embed.html".

(** The two payloads of the save endpoint. *)
Definition saved_payload : list byte :=
encode_utf8 (Json.dumps Json.defaults
(Json.JDict [("ok", Json.JBool true); ("path", Json.JStr out_path)])).
Definition failed_payload (e : pyexc) : list byte :=
encode_utf8 (Json.dumps Json.defaults
(Json.JDict [("ok", Json.JBool false); ("error", Json.JStr (exc_str e))])).

Definition send_json (code : Z) (body : list byte) : Exn Session unit :=
let! _ := send_response code None in
let! _ := send_header "Content-Type" "application/json; charset=utf-8" in
let! _ := send_header "Content-Length" (content_length body) in
let! _ := end_headers in
wfile_write body.

(** [NoCacheRequestHandler.do_POST] *)
Definition do_POST : Exn Session unit :=
let! h := self in
if String.eqb (rstrip_with is_slash (path (request h))) "/save-embed" then
try_except
(let! length :=
 lift (py_int_str (header_get "Content-Length" "0" (headers (request h)))) in
let! data := if 0 <? length then rfile_read length else ret [] in
let! _ := in_world (write_bytes out_path data) in
send_json 200 saved_payload)
(λ e, send_json 500 (failed_payload e))
else send_error 404 (Some "Not Found") None.

(** [SimpleHTTPRequestHandler.translate_path], with [self.directory] the
working directory [serve] has changed to, [ROOT]. *)
Definition translate_path (url : string) : string :=
let p := cut_at "#" (cut_at "?" url) in
let trailing_slash := ends_with_slash (rstrip_with is_py_space p) in
let p := unquote p in
let absolute := match p with String "/" _ => true | _ => false end in
let words := reverse (norm_components absolute [] (split_on "/" "" p)) in
let words := filter (λ word, word ≠ "." ∧ word ≠ "..") words in
let local := foldl path_join ROOT words in
if trailing_slash then local +:+ "/" else local.

(** [SimpleHTTPRequestHandler.list_directory] *)
Definition list_directory (local : string) : Exn Session (option (list byte)) :=
try_except
(let! names := in_world (listdir local) in
let! h := self in
let page := listing_page (path (request h)) names in
let! _ := send_response 200 None in
let! _ := send_header "Content-type"
         ("text/html; charset=" +:+ filesystem_encoding) in
let! _ := send_header "Content-Length" (content_length page) in
let! _ := end_headers in
ret (Some page))
(λ _, let! _ := send_error 404 (Some "No permission to list directory") None in
  ret None).

(** [SimpleHTTPRequestHandler.send_head], from the point where the local
path names a file. *)
Definition send_file_head (local : string) : Exn Session (option (list byte)) :=
let ctype := guess_type local in
if ends_with_slash local then
let! _ := send_error 404 (Some "File not found") None in ret None
else
try_except
(let! data := in_world (open_r local) in
let! h := self in
let hs := headers (request h) in
if has_header "If-Modified-Since" hs &&
  negb (has_header "If-None-Match" hs) &&
  not_modified_since (header_get "If-Modified-Since" "" hs) local
then
 let! _ := send_response 304 None in
 let! _ := end_headers in
 ret None
else
 let! _ := send_response 200 None in
 let! _ := send_header "Content-type" ctype in
 let! _ := send_header "Content-Length" (content_length data) in
 let! _ := send_header "Last-Modified" (last_modified local) in
 let! _ := end_headers in
 ret (Some data))
(λ _, let! _ := send_error 404 (Some "File not found") None in ret None).

(** [SimpleHTTPRequestHandler.send_head] *)
Definition send_head : Exn Session (option (list byte)) :=
let! h := self in
let url := path (request h) in
let local := translate_path url in
let! w := in_world (λ w, (inr w, w)) in
if isdir local w then
if negb (ends_with_slash (cut_at "#" (cut_at "?" url))) then
let! _ := send_response 301 None in
let! _ := send_header "Location" (redirect_location url) in
let! _ := send_header "Content-Length" "0" in
let! _ := end_headers in
ret None
else if isfile (path_join local "index.html") w then
send_file_head (path_join local "index.html")
else if isfile (path_join local "index.htm") w then
send_file_head (path_join local "index.htm")
else list_directory local
else send_file_head local.

(** [SimpleHTTPRequestHandler.do_GET] and [do_HEAD] *)
Definition do_GET : Exn Session unit :=
let! f := send_head in
match f with
| Some data => wfile_write data
| None => ret ()
end.



(** The server's answer to one request with the bytes [body] following its
headers: the outcome, what was written to the connection, and the world
afterwards. *)
Definition serve (method : Exn Session unit) (req : Request)
(body : list byte) (w : World) : (pyexc + unit) * list chunk * World :=
let '(r, s) := method (mkSession (mkHandler req body [] []) w) in
(r, wfile (handler s), world s).

End Methods.
End NoCacheRequestHandler.

(** *** What a client sees of a response *)

(** The header lines sent, the status code of the response, and its body. *)
Definition sent_lines (out : list Http.chunk) : list Http.hline :=
  out ≫= λ c, match c with Http.Head lines => lines | Http.Body _ => [] end.

Definition sent_header (keyword value : string) (out : list Http.chunk) : Prop :=
  Http.HeaderLine keyword value ∈ sent_lines out.

Definition sent_status (out : list Http.chunk) : option Z :=
  head (omap (λ l, match l with
                   | Http.StatusLine _ code _ => Some code
                   | Http.HeaderLine _ _ => None
                   end) (sent_lines out)).

Definition sent_body (out : list Http.chunk) : list byte :=
  out ≫= λ c, match c with Http.Head _ => [] | Http.Body data => data end.

(** The three headers [NoCacheRequestHandler.end_headers] adds. *)
Definition no_cache_headers (out : list Http.chunk) : Prop :=
  sent_header "Cache-Control" "no-store, no-cache, must-revalidate, max-age=0" out ∧
  sent_header "Pragma" "no-cache" out ∧
  sent_header "Access-Control-Allow-Origin" "*" out.

(** *** The answers of the save endpoint, written out *)

Section Answers.
Context {platform : Platform}.

(** The response [send_json] sends at time [t] in answer to a request of
version [version]. *)
Definition json_response (version : string) (t : Z) (code : Z)
(payload : list byte) : list Http.chunk :=
if String.eqb version "HTTP/0.9" then [Http.Body payload]
else
[Http.Head
   [Http.StatusLine "HTTP/1.0" code (from_option fst "" (Http.responses code));
    Http.HeaderLine "Server" version_string;
    Http.HeaderLine "Date" (date_time_string t);
    Http.HeaderLine "Content-Type" "application/json; charset=utf-8";
    Http.HeaderLine "Content-Length" (NoCacheRequestHandler.content_length payload);
    Http.HeaderLine "Cache-Control"
      "no-store, no-cache, must-revalidate, max-age=0";
    Http.HeaderLine "Pragma" "no-cache";
    Http.HeaderLine "Access-Control-Allow-Origin" "*"];
 Http.Body payload].

(** What [do_POST] does on the save path, as a function of the request's
version and headers, the bytes that follow them, and the world. *)
Definition save_embed (version : string) (hs : list (string * string))
(body : list byte) (w : World) : (pyexc + unit) * list Http.chunk * World :=
match py_int_str (Http.header_get "Content-Length" "0" hs) with
| inl e =>
(inr (), json_response version (clock w) 500
           (NoCacheRequestHandler.failed_payload e), w)
| inr n =>
let data := if 0 <? n then take (Z.to_nat n) body else [] in
match write_bytes NoCacheRequestHandler.out_path data w with
| (inr _, w') =>
  (inr (), json_response version (clock w') 200
             NoCacheRequestHandler.saved_payload, w')
| (inl e, w') =>
  (inr (), json_response version (clock w') 500
             (NoCacheRequestHandler.failed_payload e), w')
end
end.
(** The response [send_error code (Some message) None] sends at time [t]
in answer to a request with a version, for a code that comes with a
page. *)
Definition error_response (cmd : string) (t : Z) (code : Z) (message : string)
: list Http.chunk :=
let page := error_page code message (from_option snd "???" (Http.responses code)) in
Http.Head
[Http.StatusLine "HTTP/1.0" code message;
 Http.HeaderLine "Server" version_string;
 Http.HeaderLine "Date" (date_time_string t);
 Http.HeaderLine "Connection" "close";
 Http.HeaderLine "Content-Type" "text/html;charset=utf-8";
 Http.HeaderLine "Content-Length" (NoCacheRequestHandler.content_length page);
 Http.HeaderLine "Cache-Control"
   "no-store, no-cache, must-revalidate, max-age=0";
 Http.HeaderLine "Pragma" "no-cache";
 Http.HeaderLine "Access-Control-Allow-Origin" "*"]
:: (if negb (String.eqb cmd "HEAD") && negb (bool_decide (page = []))
  then [Http.Body page] else []).

(** The response [do_GET] sends at time [t] for the file [local] holding
[data], in answer to a request with a version. *)
Definition file_response (t : Z) (local : string) (data : list byte)
: list Http.chunk :=
[Http.Head
 [Http.StatusLine "HTTP/1.0" 200 "OK";
  Http.HeaderLine "Server" version_string;
  Http.HeaderLine "Date" (date_time_string t);
  Http.HeaderLine "Content-type" (guess_type local);
  Http.HeaderLine "Content-Length" (NoCacheRequestHandler.content_length data);
  Http.HeaderLine "Last-Modified" (last_modified local);
  Http.HeaderLine "Cache-Control"
    "no-store, no-cache, must-revalidate, max-age=0";
  Http.HeaderLine "Pragma" "no-cache";
  Http.HeaderLine "Access-Control-Allow-Origin" "*"];
Http.Body data].
End Answers.

(** *** Reasoning about the handler's methods *)

(** [triple P m Q R]: from a session satisfying [P], [m] either returns [a]
    in a session satisfying [Q a], or raises in a session satisfying [R]. *)
Definition triple {A} (P : Http.Session → Prop) (m : Exn Http.Session A)
    (Q : A → Http.Session → Prop) (R : Http.Session → Prop) : Prop :=
  ∀ s, P s → match m s with
             | (inr a, s') => Q a s'
             | (inl _, s') => R s'
             end.

(** A property of the handler alone. *)
Definition handler_only (P : Http.Session → Prop) : Prop :=
  ∀ h w w', P (Http.mkSession h w) → P (Http.mkSession h w').


(** The handler has sent the head of its response, the three no-cache
    headers among its lines, and since then pieces of body only. *)
Definition responded (s : Http.Session) : Prop :=
  ∃ lines bodies,
    Http.wfile (Http.handler s) = Http.Head lines :: (Http.Body <$> bodies) ∧
    no_cache_headers [Http.Head lines].

(** The operating system lets the next file-system call through. *)
Definition next_call_succeeds (w : World) : Prop :=
  match faults w with
  | Some _ :: _ => False
  | _ => True
  end.

(** ** Descriptions used in the statements below *)

(** The record the csv writer emits for row [r] under the columns [hs]. *)
Definition row_fields (hs : list string) (r : Row) : list string :=
  (λ h, py_str (default (PStr "") (r !! h))) <$> hs.

(** The whole text of the tabular file for [rows]. *)
Definition csv_text (hs : list string) (rows : list Row) : string :=
  Csv.record hs +:+ String.concat "" (Csv.record <$> (row_fields hs <$> rows)).

(** A record none of whose fields needs quoting. *)
Definition plain_record (fields : list string) : Prop :=
  fields ≠ [] ∧ fields ≠ [""] ∧ Forall (λ f, Csv.has_special f = false) fields.

(** ** A concrete setting, used to exercise the statements below *)

Definition sample_platform : Platform :=
  {| ROOT := "/srv/election";
     strftime := λ _, "2024-01-01 00:00:00";
     py_repr := λ s, "'" +:+ s +:+ "'";
     version_string := "SimpleHTTP/0.6 Python/3.11.2";
     date_time_string := λ _, "Mon, 01 Jan 2024 00:00:00 GMT";
     error_page := λ _ message _, String.list_byte_of_string message;
     guess_type := λ _, "application/octet-stream";
     last_modified := λ _, "Mon, 01 Jan 2024 00:00:00 GMT";
     not_modified_since := λ _ _, false;
     listing_page := λ _ _, [];
     redirect_location := λ p, p +:+ "/";
     filesystem_encoding := "utf-8" |}.

Definition sample_random : Random := mkRandom (λ n, N.of_nat (7 * n + 3)) 0.

Definition sample_world : World :=
  mkWorld ∅ ∅ [] [] [] 0 None
    (λ n, mkRandom (λ k, N.of_nat (7 * k + 3 + n)) 0) [].

(** A text whose first character cannot continue a number. *)
Definition no_digit_head (s : string) : Prop :=
  match s with
  | String c _ => is_digit c = false
  | "" => True
  end.

(** A text that starts with the first character of an encoded value: not
    white space, and not a closing bracket. *)
Definition value_head (s : string) : Prop :=
  match s with
  | String c _ =>
    Json.is_ws c = false ∧ c ≠ "]"%char ∧ c ≠ "}"%char
  | "" => False
  end.

(** A value that the decoder reads back from its encoded text, whatever the
    indentation level and whatever follows the text (as long as it cannot
    be taken for more of a number). *)
Definition scans_back (o : Json.options) (v : Json.value) : Prop :=
  ∀ (level : nat) (rest : string) (fuel : nat),
    (Json.size v ≤ fuel)%nat → Json.ends_number rest = true →
    Json.scan_value fuel (Json.iterencode o v level +:+ rest) = Some (v, rest).

(** A world in which the first attempt to open a file is refused. *)
Definition refusing_world : World :=
  set_faults [Some "[Errno 13] Permission denied"] sample_world.

(** A world in which the third attempt to open a file is refused, and the
    stop event is set at time 70. *)
Definition flaky_world : World :=
  mkWorld ∅ ∅ [None; None; Some "[Errno 13] Permission denied"] [] [] 0
    (Some 70) (entropy_source sample_world) [].



(** Requests used to exercise the statements about the handler. *)
Definition save_request : Http.Request :=
  Http.mkRequest "POST" "/save-embed" "HTTP/1.1"
    [("Host", "127.0.0.1:8080"); ("Content-Length", "5")].


Definition fetch_request : Http.Request :=
  Http.mkRequest "GET" "/superdynamic%20-%20embed.html" "HTTP/1.1" [].

Definition lengthless_request : Http.Request :=
  Http.mkRequest "POST" "/save-embed" "HTTP/1.1" [("Host", "127.0.0.1:8080")].

Definition garbled_request : Http.Request :=
  Http.mkRequest "POST" "/save-embed" "HTTP/1.1" [("Content-Length", "five")].

(** ** What a computation leaves alone *)

(** [w'] differs from [w] in no file outside [paths], in no directory, and
    in nothing printed. *)
Definition same_outside (paths : gset string) (w w' : World) : Prop :=
  (∀ p, p ∉ paths → files w' !! p = files w !! p) ∧
  dirs w' = dirs w ∧ stdout w' = stdout w ∧ stderr w' = stderr w.

Definition writes_only {A} (paths : gset string) (m : IO A) : Prop :=
  ∀ w, same_outside paths w (m w).2.


(** ** More concrete settings *)

(** The rows of one generated snapshot, and of the next one. *)
Definition sample_rows : list Row := (new_random_snapshot sample_random).1.
Definition later_rows : list Row :=
  (new_random_snapshot (entropy_source sample_world 1)).1.

(** A row as the generator never makes one: a comma in the party's name, a
    count held as text, and the other columns missing. *)
Definition awkward_rows : list Row :=
  [ {[ "Party" := PStr "Grey, Mr"; "2020_Seats" := PStr "12" ]} ].


(** A world in which the second attempt to open a file is refused. *)
Definition half_refusing_world : World :=
  set_faults [None; Some "[Errno 13] Permission denied"] sample_world.

(** A world whose stop event is set before the updater starts. *)
Definition stopped_world : World :=
  mkWorld ∅ ∅ [] [] [] 5 (Some 0) (entropy_source sample_world) [].


Definition csv_request : Http.Request :=
  Http.mkRequest "GET" "/data.csv" "HTTP/1.1" [].

(** ** Facts about strings used as dictionary keys *)

Lemma string_app_cons (c : ascii) (s t : string) :
  String c s +:+ t = String c (s +:+ t).
Proof. reflexivity. Qed.

Lemma string_app_nil_l (t : string) : "" +:+ t = t.
Proof. reflexivity. Qed.

Lemma string_app_nil_r (s : string) : s +:+ "" = s.
Proof. induction s as [|c s IH]; [done|]. by rewrite string_app_cons, IH. Qed.

Lemma string_app_assoc (s t u : string) : (s +:+ t) +:+ u = s +:+ (t +:+ u).
Proof.
  induction s as [|c s IH]; [done|]. by rewrite !string_app_cons, IH.
Qed.

Lemma string_app_length (s t : string) :
  String.length (s +:+ t) = (String.length s + String.length t)%nat.
Proof.
  induction s as [|c s IH]; [done|]. rewrite string_app_cons. simpl. by rewrite IH.
Qed.

(** Two concatenations with suffixes of the same length agree only when both
    parts agree. *)
Lemma string_app_inj_suffix (s1 s2 t1 t2 : string) :
  String.length t1 = String.length t2 →
  s1 +:+ t1 = s2 +:+ t2 → s1 = s2 ∧ t1 = t2.
Proof.
  intros Hlen. revert s2.
  induction s1 as [|c s1 IH]; intros [|d s2] Heq.
  - done.
  - exfalso. apply (f_equal String.length) in Heq.
    rewrite string_app_nil_l, string_app_cons in Heq. simpl in Heq.
    rewrite string_app_length in Heq. lia.
  - exfalso. apply (f_equal String.length) in Heq.
    rewrite string_app_nil_l, string_app_cons in Heq. simpl in Heq.
    rewrite string_app_length in Heq. lia.
  - rewrite !string_app_cons in Heq. injection Heq as -> Heq.
    destruct (IH _ Heq) as [-> ->]. done.
Qed.

Lemma seats_key_inj (y y' : string) : seats_key y = seats_key y' → y = y'.
Proof. intros H. by apply string_app_inj_suffix in H as [? _]. Qed.

Lemma leads_key_inj (y y' : string) : leads_key y = leads_key y' → y = y'.
Proof. intros H. by apply string_app_inj_suffix in H as [? _]. Qed.

Lemma seats_key_ne_leads_key (y y' : string) : seats_key y ≠ leads_key y'.
Proof. intros H. by apply string_app_inj_suffix in H as [_ ?]. Qed.

(** A key shorter than the six-character suffix is not a per-year key. *)
Lemma short_key_not_yearly (k y suf : string) :
  (String.length k < String.length suf)%nat → k ≠ y +:+ suf.
Proof.
  intros Hlt ->. rewrite string_app_length in Hlt. lia.
Qed.

(** ** The generated snapshot *)

Lemma randint_range (a b : Z) (g : Random) :
  a ≤ b → a ≤ (randint a b g).1 ≤ b.
Proof.
  intros Hab. unfold randint, sbind, randbelow, sret. simpl.
  pose proof (Z.mod_pos_bound (Z.of_N (entropy g (cursor g))) (b - a + 1)).
  lia.
Qed.

Lemma fill_year_spec (p : Party) (row : Row) (y : string) (g : Random) :
  yearly_result p (fill_year p row y g).1 y ∧
  ∀ k, k ≠ seats_key y → k ≠ leads_key y →
       (fill_year p row y g).1 !! k = row !! k.
Proof.
  unfold fill_year, sbind, sret.
  destruct (randint (-5) 5 g) as [delta g1] eqn:Hd.
  destruct (randint 0 5 g1) as [leads g2] eqn:Hl. simpl.
  pose proof (randint_range (-5) 5 g) as Hdr. rewrite Hd in Hdr.
  pose proof (randint_range 0 5 g1) as Hlr. rewrite Hl in Hlr.
  simpl in Hdr, Hlr.
  split.
  - exists delta, leads. split; [lia|]. split; [lia|]. split.
    + rewrite lookup_insert_ne by (symmetry; apply seats_key_ne_leads_key).
      apply lookup_insert_eq.
    + apply lookup_insert_eq.
  - intros k Hs Hk. by rewrite !lookup_insert_ne.
Qed.

Lemma yearly_result_ext (p : Party) (row row' : Row) (y : string) :
  row' !! seats_key y = row !! seats_key y →
  row' !! leads_key y = row !! leads_key y →
  yearly_result p row y → yearly_result p row' y.
Proof.
  intros Hs Hl (delta & leads & ? & ? & ? & ?).
  exists delta, leads. rewrite Hs, Hl. done.
Qed.

Lemma fill_years_spec (ys : list string) (p : Party) (row : Row) (g : Random) :
  (∀ y, y ∈ ys → yearly_result p (fill_years p row ys g).1 y) ∧
  (∀ k, (∀ y, y ∈ ys → k ≠ seats_key y ∧ k ≠ leads_key y) →
        (fill_years p row ys g).1 !! k = row !! k).
Proof.
  revert row g. induction ys as [|y ys IH]; intros row g.
  - split; [intros y Hy; by apply elem_of_nil in Hy | done].
  - simpl. unfold sbind.
    destruct (fill_year p row y g) as [row1 g1] eqn:Hstep.
    pose proof (fill_year_spec p row y g) as [Hy Hframe].
    rewrite Hstep in Hy, Hframe. simpl in Hy, Hframe.
    destruct (IH row1 g1) as [IHys IHframe].
    split.
    + intros y' Hy'. destruct (decide (y' ∈ ys)) as [Hin|Hnotin].
      { by apply IHys. }
      apply elem_of_cons in Hy' as [->|?]; [|done].
      apply (yearly_result_ext p row1); [| |done]; apply IHframe; intros y'' Hy''.
      * split; [|apply seats_key_ne_leads_key].
        intros Heq%seats_key_inj. by subst.
      * split; [apply not_eq_sym, seats_key_ne_leads_key|].
        intros Heq%leads_key_inj. by subst.
    + intros k Hk. rewrite IHframe.
      * apply Hframe; apply (Hk y); left.
      * intros y' Hy'. apply Hk. by right.
Qed.

Lemma party_row_spec (p : Party) (g : Random) : row_of p (party_row p g).1.
Proof.
  unfold party_row.
  destruct (fill_years_spec YEARS p
              (<["Color" := PStr (color p)]> (<["Party" := PStr (name p)]> ∅)) g)
    as [Hys Hframe].
  split_and!; [| |done].
  - rewrite Hframe; [by simplify_map_eq|].
    intros y _. split; apply short_key_not_yearly; simpl; lia.
  - rewrite Hframe; [by simplify_map_eq|].
    intros y _. split; apply short_key_not_yearly; simpl; lia.
Qed.

Lemma snapshot_rows_spec (ps : list Party) (rows : list Row) (g : Random) :
  ∃ news, (snapshot_rows ps rows g).1 = rows ++ news ∧ Forall2 row_of ps news.
Proof.
  revert rows g. induction ps as [|p ps IH]; intros rows g.
  - exists []. by rewrite app_nil_r.
  - simpl. unfold sbind.
    pose proof (party_row_spec p g) as Hrow.
    destruct (party_row p g) as [row g1]. simpl in Hrow.
    destruct (IH (rows ++ [row]) g1) as (news & -> & Hnews).
    exists (row :: news). split; [by rewrite <- app_assoc | by constructor].
Qed.

Lemma new_random_snapshot_rows (g : Random) :
  Forall2 row_of PARTIES (new_random_snapshot g).1.
Proof.
  destruct (snapshot_rows_spec PARTIES [] g) as (news & Heq & Hnews).
  unfold new_random_snapshot. by rewrite Heq.
Qed.

(** C2: whatever the random source delivers, every per-year seat count of a
    generated snapshot is the non-negative integer [max 0 (base + delta)] for
    some [delta] of [-5 .. 5], and every per-year leads count is an integer of
    [0 .. 5]. *)
Theorem snapshot_counts_in_range (g : Random) :
  Forall2 (λ p row, ∀ y, y ∈ YEARS →
    ∃ delta leads : Z,
      row !! seats_key y = Some (PInt (Z.max 0 (base p + delta))) ∧
      -5 ≤ delta ≤ 5 ∧ 0 ≤ Z.max 0 (base p + delta) ∧
      row !! leads_key y = Some (PInt leads) ∧ 0 ≤ leads ≤ 5)
    PARTIES (new_random_snapshot g).1.
Proof.
  eapply Forall2_impl; [apply new_random_snapshot_rows|].
  intros p row (_ & _ & Hys) y Hy.
  destruct (Hys y Hy) as (delta & leads & ? & ? & ? & ?).
  exists delta, leads. split_and!; try done; lia.
Qed.

(** ** Text, bytes and the I/O monad *)

Lemma decode_encode_utf8 (s : string) : decode_utf8 (encode_utf8 s) = s.
Proof. apply String.string_of_list_byte_of_string. Qed.

Lemma encode_utf8_app (s t : string) :
  encode_utf8 (s +:+ t) = encode_utf8 s ++ encode_utf8 t.
Proof.
  unfold encode_utf8, String.list_byte_of_string.
  induction s as [|c s IH]; [done|].
  rewrite string_app_cons. simpl. by rewrite IH.
Qed.

Lemma string_concat_empty_cons (x : string) (l : list string) :
  String.concat "" (x :: l) = x +:+ String.concat "" l.
Proof. destruct l; [by rewrite string_app_nil_r | done]. Qed.

Lemma set_files_id (w : World) : set_files (files w) w = w.
Proof. by destruct w. Qed.

Lemma set_files_twice (f1 f2 : gmap string (list byte)) (w : World) :
  set_files f2 (set_files f1 w) = set_files f2 w.
Proof. done. Qed.

Lemma open_w_inr (path : string) (w : World) :
  (open_w path w).1 = inr tt →
  (path ∉ dirs w) ∧
  open_w path w =
    (inr tt, set_files (<[path := []]> (files w)) (set_faults (tail (faults w)) w)).
Proof.
  unfold open_w. destruct (faults w) as [|[msg|] rest]; simpl;
    try case_decide; simpl; intros; by simplify_eq.
Qed.

Lemma bind_inr {S A B} (m : Exn S A) (k : A → Exn S B) (w : S) (b : B) :
  (bind m k w).1 = inr b →
  ∃ a, (m w).1 = inr a ∧ bind m k w = k a (m w).2.
Proof.
  unfold bind. destruct (m w) as [[e|a] w1]; simpl; [done|]. eauto.
Qed.

(** ** The csv writer *)

Lemma lookup_list_to_map_fun {V} (f : string → V) (hs : list string) (key : string) :
  key ∈ hs →
  (list_to_map ((λ h, (h, f h)) <$> hs) : gmap string V) !! key = Some (f key).
Proof.
  induction hs as [|h hs IH]; [by intros ?%elem_of_nil|].
  intros Hin. simpl. destruct (decide (h = key)) as [->|Hne].
  - apply lookup_insert_eq.
  - rewrite lookup_insert_ne by done. apply IH.
    apply elem_of_cons in Hin as [?|?]; [congruence|done].
Qed.

Lemma dict_to_list_fun (f : string → pyval) (hs : list string) (restval : pyval) :
  Csv.dict_to_list hs restval (list_to_map ((λ h, (h, f h)) <$> hs)) = inr (f <$> hs).
Proof.
  unfold Csv.dict_to_list. rewrite bool_decide_eq_true_2.
  - f_equal. apply Forall_fmap_ext_1, Forall_forall. intros key Hkey.
    by rewrite lookup_list_to_map_fun.
  - rewrite dom_list_to_map_L, <- list_fmap_compose.
    rewrite (list_fmap_ext _ id hs) by done. by rewrite list_fmap_id.
Qed.

Lemma writerow_rowdict (hs : list string) (r : Row) :
  Csv.writerow hs (csv_rowdict hs r) = inr (Csv.record (row_fields hs r)).
Proof.
  unfold Csv.writerow, csv_rowdict.
  rewrite (dict_to_list_fun (λ h, default (PStr "") (r !! h)) hs (PStr "")). simpl.
  unfold row_fields. by rewrite <- list_fmap_compose.
Qed.

Lemma writeheader_record (hs : list string) :
  Csv.writeheader hs = inr (Csv.record hs).
Proof.
  unfold Csv.writeheader, Csv.writerow.
  replace (zip hs (PStr <$> hs)) with ((λ h, (h, PStr h)) <$> hs).
  - rewrite (dict_to_list_fun PStr hs (PStr "")). simpl.
    rewrite <- list_fmap_compose. rewrite (list_fmap_ext _ id hs) by done.
    by rewrite list_fmap_id.
  - induction hs as [|h hs IH]; [done|]. csimpl. by f_equal.
Qed.

Section WriterProofs.
Context {platform : Platform}.

Lemma write_rows_run (hs : list string) (rows : list Row) (w : World)
(old : list byte) :
files w !! CSV_PATH = Some old →
write_rows hs rows w =
(inr tt,
 set_files
   (<[CSV_PATH := old ++ encode_utf8
        (String.concat "" (Csv.record <$> (row_fields hs <$> rows)))]>
      (files w)) w).
Proof.
revert w old. induction rows as [|r rows IH]; intros w old Hold.
- simpl. unfold ret. rewrite app_nil_r, insert_id by done.
by rewrite set_files_id.
- rewrite !fmap_cons, string_concat_empty_cons, encode_utf8_app, app_assoc.
cbn [write_rows]. unfold bind at 1. unfold lift. rewrite writerow_rowdict.
unfold bind at 1. unfold file_write at 1. rewrite Hold.
cbn [default]. erewrite IH; [|apply lookup_insert_eq].
cbn [files set_files]. by rewrite insert_insert_eq.
Qed.

Lemma write_csv_run (hs : list string) (rows : list Row) (w : World) :
(write_csv hs rows w).1 = inr tt →
(CSV_PATH ∉ dirs w) ∧
write_csv hs rows w =
(inr tt,
 set_files (<[CSV_PATH := encode_utf8 (csv_text hs rows)]> (files w))
   (set_faults (tail (faults w)) w)).
Proof.
intros Hok. unfold write_csv in *.
apply bind_inr in Hok as ([] & Hopen & Hrun).
apply open_w_inr in Hopen as [Hdir Hopen].
split; [done|]. rewrite Hrun, Hopen. cbn [snd].
unfold bind at 1. unfold lift. rewrite writeheader_record.
unfold bind at 1. unfold file_write at 1. cbn [files set_files].
rewrite lookup_insert_eq. cbn [default app].
erewrite write_rows_run; [|apply lookup_insert_eq].
cbn [files set_files set_faults faults dirs stdout stderr clock stop_at].
rewrite !insert_insert_eq. unfold csv_text.
by rewrite encode_utf8_app.
Qed.
End WriterProofs.

(** ** Decimal numerals *)

Ltac by_cases_on_char c :=
  destruct c as [[] [] [] [] [] [] [] []]; try discriminate; try reflexivity.

Lemma digits_string_of_uint (d : uint) :
  string_forall is_digit (NilEmpty.string_of_uint d) = true.
Proof. induction d; simpl; done. Qed.

Lemma string_of_uint_nonempty (d : uint) :
  d ≠ Nil → NilEmpty.string_of_uint d ≠ "".
Proof. by destruct d. Qed.

(** The text of an integer: an optional minus sign, then the digits of its
    absolute value, of which there is at least one. *)
Lemma py_str_int_spec (z : Z) :
  ∃ d : uint,
    d ≠ Nil ∧ Z.of_uint d = Z.abs z ∧
    py_str_int z =
      if z <? 0 then String "-" (NilEmpty.string_of_uint d)
      else NilEmpty.string_of_uint d.
Proof.
  unfold py_str_int. destruct z as [|p|p]; simpl.
  - by exists (D0 Nil).
  - exists (Pos.to_uint p).
    pose proof (DecimalPos.Unsigned.to_uint_nonnil p) as Hnil.
    split; [done|]. split; [apply (DecimalZ.of_to (Z.pos p))|].
    by destruct (Pos.to_uint p).
  - exists (Pos.to_uint p).
    pose proof (DecimalPos.Unsigned.to_uint_nonnil p) as Hnil.
    split; [done|]. split; [apply (DecimalZ.of_to (Z.pos p))|].
    by destruct (Pos.to_uint p).
Qed.

Lemma string_forall_impl (p q : ascii → bool) (s : string) :
  (∀ c, p c = true → q c = true) →
  string_forall p s = true → string_forall q s = true.
Proof.
  intros Hpq. induction s as [|c s IH]; [done|]. simpl.
  intros [Hc Hs]%andb_true_iff. by rewrite (Hpq c Hc), IH.
Qed.

Lemma rstrip_with_none (p : ascii → bool) (s : string) :
  string_forall (λ c, negb (p c)) s = true → rstrip_with p s = s.
Proof.
  induction s as [|c s IH]; [done|]. simpl.
  intros [Hc Hs]%andb_true_iff. rewrite (IH Hs).
  destruct s; [|done]. by destruct (p c).
Qed.

Lemma literal_digits_all (s : string) :
  string_forall is_digit s = true → literal_digits true s = Some s.
Proof.
  induction s as [|c s IH]; [done|]. simpl.
  intros [Hc Hs]%andb_true_iff. by rewrite Hc, (IH Hs).
Qed.

Lemma literal_digits_start (s : string) :
  s ≠ "" → string_forall is_digit s = true → literal_digits false s = Some s.
Proof.
  destruct s as [|c s]; [done|]. simpl.
  intros _ [Hc Hs]%andb_true_iff. by rewrite Hc, (literal_digits_all s Hs).
Qed.

Lemma py_int_of_digits (ds : string) :
  ds ≠ "" → string_forall is_digit ds = true →
  py_int_of_string ds = Z.of_uint <$> NilEmpty.uint_of_string ds.
Proof.
  intros Hne Hds. unfold py_int_of_string.
  assert (lstrip_with is_py_space ds = ds) as ->.
  { destruct ds as [|c ds]; [done|]. simpl in *.
    apply andb_true_iff in Hds as [Hc _]. by by_cases_on_char c. }
  rewrite rstrip_with_none.
  2:{ eapply string_forall_impl; [|done]. intros c Hc. by by_cases_on_char c. }
  assert ((match ds with
           | String "-" r => (true, r)
           | String "+" r => (false, r)
           | _ => (false, ds)
           end) = (false, ds)) as ->.
  { destruct ds as [|c ds]; [done|]. simpl in Hds.
    apply andb_true_iff in Hds as [Hc _]. by by_cases_on_char c. }
  rewrite literal_digits_start by done. simpl.
  by destruct (NilEmpty.uint_of_string ds).
Qed.

Lemma py_int_of_str_int (z : Z) : py_int_of_string (py_str_int z) = Some z.
Proof.
  destruct (py_str_int_spec z) as (d & Hnil & Habs & ->).
  pose proof (digits_string_of_uint d) as Hds.
  pose proof (string_of_uint_nonempty d Hnil) as Hne.
  destruct (z <? 0) eqn:Hneg.
  - unfold py_int_of_string.
    change (lstrip_with is_py_space (String "-" (NilEmpty.string_of_uint d)))
      with (String "-" (NilEmpty.string_of_uint d)).
    rewrite rstrip_with_none.
    2:{ simpl. eapply string_forall_impl; [|done]. intros c Hc. by by_cases_on_char c. }
    rewrite literal_digits_start by done. simpl.
    rewrite NilEmpty.usu. simpl. f_equal. apply Z.ltb_lt in Hneg. lia.
  - rewrite py_int_of_digits by done. rewrite NilEmpty.usu. simpl.
    f_equal. apply Z.ltb_ge in Hneg. lia.
Qed.

Lemma py_str_int_plain (z : Z) : Csv.has_special (py_str_int z) = false.
Proof.
  destruct (py_str_int_spec z) as (d & _ & _ & ->).
  assert (Csv.has_special (NilEmpty.string_of_uint d) = false) as Hd.
  { pose proof (digits_string_of_uint d) as Hds.
    induction (NilEmpty.string_of_uint d) as [|c s IH]; [done|].
    simpl in *. apply andb_true_iff in Hds as [Hc Hs]. rewrite (IH Hs).
    by by_cases_on_char c. }
  by destruct (z <? 0).
Qed.

(** ** Reading back what the csv writer wrote *)

Lemma not_special (c : ascii) :
  Csv.special c = false →
  (c =? ",")%char = false ∧ (c =? dquote)%char = false ∧
  (c =? CR)%char = false ∧ (c =? LF)%char = false.
Proof.
  unfold Csv.special. intros H.
  repeat (apply orb_false_elim in H as [H ?]). done.
Qed.

Lemma run_in_field (f rest cur : string) (rec : list string) :
  Csv.has_special f = false →
  Csv.run Csv.InField cur rec (f +:+ rest) = Csv.run Csv.InField (cur +:+ f) rec rest.
Proof.
  revert cur. induction f as [|c f IH]; intros cur Hf.
  - by rewrite string_app_nil_l, string_app_nil_r.
  - simpl in Hf. apply orb_false_elim in Hf as [Hc Hf].
    apply not_special in Hc as (Hcomma & _ & Hcr & Hlf).
    rewrite string_app_cons. simpl. rewrite Hcr, Hlf, Hcomma. simpl.
    rewrite (IH _ Hf). by rewrite string_app_assoc.
Qed.

(** A field read from the start of a record or of a field. *)
Lemma run_start_field (st : Csv.rstate) (c : ascii) (f rest : string)
    (rec : list string) :
  st = Csv.StartRecord ∨ st = Csv.StartField →
  Csv.has_special (String c f) = false →
  Csv.run st "" rec (String c f +:+ rest) =
  Csv.run Csv.InField (String c f) rec rest.
Proof.
  intros Hst Hf. simpl in Hf. apply orb_false_elim in Hf as [Hc Hf].
  apply not_special in Hc as (Hcomma & Hdq & Hcr & Hlf).
  rewrite string_app_cons.
  destruct Hst as [-> | ->]; simpl; rewrite Hcr, Hlf, Hdq, Hcomma; simpl;
    by rewrite (run_in_field f rest (str1 c) rec Hf).
Qed.

Lemma run_field_comma (st : Csv.rstate) (f rest : string) (rec : list string) :
  st = Csv.StartRecord ∨ st = Csv.StartField →
  Csv.has_special f = false →
  Csv.run st "" rec (f +:+ "," +:+ rest) = Csv.run Csv.StartField "" (rec ++ [f]) rest.
Proof.
  intros Hst Hf. destruct f as [|c f].
  - rewrite string_app_nil_l. by destruct Hst as [-> | ->].
  - by rewrite run_start_field.
Qed.

Lemma run_field_eol (st : Csv.rstate) (f rest : string) (rec : list string) :
  st = Csv.StartField ∨ (st = Csv.StartRecord ∧ f ≠ "") →
  Csv.has_special f = false →
  Csv.run st "" rec (f +:+ Csv.lineterminator +:+ rest) =
  (rec ++ [f]) :: Csv.run Csv.StartRecord "" [] rest.
Proof.
  intros Hst Hf. destruct f as [|c f].
  - rewrite string_app_nil_l. by destruct Hst as [-> | [_ ?]].
  - rewrite run_start_field; [done| |done]. destruct Hst as [-> | [-> _]]; auto.
Qed.

Lemma run_fields (fields : list string) (st : Csv.rstate) (rec : list string)
    (rest : string) :
  fields ≠ [] →
  Forall (λ f, Csv.has_special f = false) fields →
  st = Csv.StartField ∨ (st = Csv.StartRecord ∧ fields ≠ [""]) →
  Csv.run st "" rec (String.concat "," fields +:+ Csv.lineterminator +:+ rest) =
  (rec ++ fields) :: Csv.run Csv.StartRecord "" [] rest.
Proof.
  revert st rec. induction fields as [|f fields IH]; intros st rec Hne Hplain Hst;
    [done|].
  apply Forall_cons in Hplain as [Hf Hplain].
  destruct fields as [|g fields].
  - simpl. apply run_field_eol; [|done].
    destruct Hst as [-> | [-> Hf']]; [by left|]. right. split; [done|].
    intros ->. done.
  - change (String.concat "," (f :: g :: fields))
      with (f +:+ "," +:+ String.concat "," (g :: fields)).
    rewrite !string_app_assoc. rewrite run_field_comma; [| |done].
    + rewrite IH; [|done|done|by left]. by rewrite <- app_assoc.
    + destruct Hst as [-> | [-> _]]; auto.
Qed.

Lemma csv_field_plain (fields : list string) :
  Forall (λ f, Csv.has_special f = false) fields → Csv.field <$> fields = fields.
Proof.
  intros Hplain. rewrite <- (list_fmap_id fields) at 2.
  apply Forall_fmap_ext_1. eapply Forall_impl; [done|].
  intros f Hf. unfold Csv.field. by rewrite Hf.
Qed.

Lemma run_record (fields : list string) (rest : string) :
  plain_record fields →
  Csv.run Csv.StartRecord "" [] (Csv.record fields +:+ rest) =
  fields :: Csv.run Csv.StartRecord "" [] rest.
Proof.
  intros (Hne & Hne' & Hplain).
  assert (Csv.record fields =
          String.concat "," fields +:+ Csv.lineterminator) as ->.
  { unfold Csv.record. rewrite (csv_field_plain fields Hplain).
    destruct fields as [|[|] [|]]; done. }
  rewrite string_app_assoc. by rewrite run_fields; [| | |right].
Qed.

Lemma reader_records (records : list (list string)) :
  Forall plain_record records →
  Csv.reader (String.concat "" (Csv.record <$> records)) = records.
Proof.
  unfold Csv.reader. induction records as [|fields records IH]; [done|].
  intros [Hf Hrecords]%Forall_cons.
  rewrite fmap_cons, string_concat_empty_cons, (run_record _ _ Hf).
  by rewrite (IH Hrecords).
Qed.

(** ** One generation cycle *)

Lemma headers_eq :
  headers = ["Party"; "Color"; "2020_Seats"; "2020_Leads"; "2024_Seats"; "2024_Leads"].
Proof. reflexivity. Qed.

Lemma header_record :
  Csv.record headers =
  "Party,Color,2020_Seats,2020_Leads,2024_Seats,2024_Leads" +:+ Csv.lineterminator.
Proof. reflexivity. Qed.

Lemma row_of_inv (p : Party) (r : Row) :
  row_of p r →
  ∃ s1 l1 s2 l2 : Z,
    r !! "Party" = Some (PStr (name p)) ∧
    r !! "Color" = Some (PStr (color p)) ∧
    r !! "2020_Seats" = Some (PInt s1) ∧ r !! "2020_Leads" = Some (PInt l1) ∧
    r !! "2024_Seats" = Some (PInt s2) ∧ r !! "2024_Leads" = Some (PInt l2).
Proof.
  intros (Hparty & Hcolor & Hyears).
  destruct (Hyears "2020") as (d1 & l1 & _ & _ & Hs1 & Hl1); [set_solver|].
  destruct (Hyears "2024") as (d2 & l2 & _ & _ & Hs2 & Hl2); [set_solver|].
  by eexists _, l1, _, l2.
Qed.

Lemma row_fields_of (p : Party) (r : Row) :
  row_of p r →
  ∃ s1 l1 s2 l2 : Z,
    row_fields headers r =
      [name p; color p; py_str_int s1; py_str_int l1; py_str_int s2; py_str_int l2] ∧
    row_tuples r = Some [(name p, "2020", s1, l1); (name p, "2024", s2, l2)].
Proof.
  intros (s1 & l1 & s2 & l2 & Hp & Hc & Hs1 & Hl1 & Hs2 & Hl2)%row_of_inv.
  exists s1, l1, s2, l2. split.
  - unfold row_fields. rewrite headers_eq. csimpl.
    by rewrite Hp, Hc, Hs1, Hl1, Hs2, Hl2.
  - unfold row_tuples. rewrite Hp. unfold YEARS. csimpl.
    change (seats_key "2020") with "2020_Seats".
    change (leads_key "2020") with "2020_Leads".
    change (seats_key "2024") with "2024_Seats".
    change (leads_key "2024") with "2024_Leads".
    by rewrite Hs1, Hl1, Hs2, Hl2.
Qed.

Section CycleProofs.
Context {platform : Platform}.

Lemma csv_path_ne_json_path : CSV_PATH ≠ JSON_PATH.
Proof.
unfold CSV_PATH, JSON_PATH, path_join.
destruct (ends_with_slash ROOT); intros Heq;
apply String.app_inj in Heq; discriminate.
Qed.

Lemma write_csv_and_json_run (rows : list Row) (w : World) :
(write_csv_and_json rows w).1 = inr tt →
∃ data,
json_data rows = inr data ∧
files (write_csv_and_json rows w).2 =
  <[JSON_PATH := encode_utf8 (Json.dumps Json.pretty data)]>
    (<[CSV_PATH := encode_utf8 (csv_text headers rows)]> (files w)).
Proof.
intros Hok. unfold write_csv_and_json in *.
destruct (bind_inr _ _ _ _ Hok) as ([] & Hcsv & _).
apply write_csv_run in Hcsv as [_ Hcsv].
unfold bind at 1. unfold bind at 1 in Hok. rewrite Hcsv in *.
unfold bind at 1. unfold bind at 1 in Hok. unfold lift in *.
destruct (json_data rows) as [e|data]; [done|].
exists data. split; [done|].
unfold write_text, write_bytes in *.
destruct (bind_inr _ _ _ _ Hok) as ([] & Hopen & _).
apply open_w_inr in Hopen as [_ Hopen].
unfold bind. rewrite Hopen.
unfold file_write. cbn [files set_files set_faults snd].
rewrite lookup_insert_eq. cbn [default app].
by rewrite insert_insert_eq.
Qed.
End CycleProofs.

Lemma snapshot_rows_inv (g : Random) :
  ∃ r1 r2 r3 : Row,
    (new_random_snapshot g).1 = [r1; r2; r3] ∧
    row_of (mkParty "Alpha" "#1f77b4" 120) r1 ∧
    row_of (mkParty "Beta" "#ff7f0e" 100) r2 ∧
    row_of (mkParty "Gamma" "#2ca02c" 80) r3.
Proof.
  pose proof (new_random_snapshot_rows g) as Hrows. unfold PARTIES in Hrows.
  apply Forall2_cons_inv_l in Hrows as (r1 & k1 & H1 & Hrows & ->).
  apply Forall2_cons_inv_l in Hrows as (r2 & k2 & H2 & Hrows & ->).
  apply Forall2_cons_inv_l in Hrows as (r3 & k3 & H3 & Hrows & ->).
  apply Forall2_nil_inv_l in Hrows as ->.
  by exists r1, r2, r3.
Qed.

Lemma plain_record_of_party (p : Party) (s1 l1 s2 l2 : Z) :
  Csv.has_special (name p) = false → Csv.has_special (color p) = false →
  plain_record
    [name p; color p; py_str_int s1; py_str_int l1; py_str_int s2; py_str_int l2].
Proof.
  intros Hn Hc. split; [done|]. split; [done|].
  repeat (apply Forall_cons; split; [done || apply py_str_int_plain|]).
  apply Forall_nil_2.
Qed.

Section TabularFile.
Context {platform : Platform}.

(** C6: whatever the snapshot holds, the tabular file written from it
starts with the line
[Party,Color,2020_Seats,2020_Leads,2024_Seats,2024_Leads], and that
line is followed by exactly one record per party, each holding all six
columns of the header. *)
Theorem tabular_header_and_rows (g : Random) (w : World) :
(write_csv_and_json (new_random_snapshot g).1 w).1 = inr tt →
∃ (text : string) (data : list (list string)),
read_text CSV_PATH (write_csv_and_json (new_random_snapshot g).1 w).2
  = Some text ∧
text = "Party,Color,2020_Seats,2020_Leads,2024_Seats,2024_Leads" +:+
       Csv.lineterminator +:+ String.concat "" (Csv.record <$> data) ∧
Csv.reader text =
  ["Party"; "Color"; "2020_Seats"; "2020_Leads"; "2024_Seats"; "2024_Leads"]
    :: data ∧
Forall2 (λ p fields, ∃ s1 l1 s2 l2 : Z,
           fields = [name p; color p; py_str_int s1; py_str_int l1;
                     py_str_int s2; py_str_int l2])
  PARTIES data.
Proof.
intros Hok.
destruct (write_csv_and_json_run _ _ Hok) as (doc & _ & Hfiles).
destruct (snapshot_rows_inv g) as (r1 & r2 & r3 & Hrows & H1 & H2 & H3).
rewrite Hrows in *.
destruct (row_fields_of _ _ H1) as (a1 & b1 & c1 & d1 & Hf1 & _).
destruct (row_fields_of _ _ H2) as (a2 & b2 & c2 & d2 & Hf2 & _).
destruct (row_fields_of _ _ H3) as (a3 & b3 & c3 & d3 & Hf3 & _).
eexists (csv_text headers [r1; r2; r3]),
      [row_fields headers r1; row_fields headers r2; row_fields headers r3].
split_and!.
- unfold read_text. rewrite Hfiles.
rewrite lookup_insert_ne by (apply not_eq_sym, csv_path_ne_json_path).
rewrite lookup_insert_eq. simpl. by rewrite decode_encode_utf8.
- unfold csv_text. by rewrite header_record, string_app_assoc.
- unfold csv_text.
rewrite <- string_concat_empty_cons, <- !fmap_cons.
rewrite reader_records; [done|].
rewrite !fmap_cons, fmap_nil, Hf1, Hf2, Hf3.
repeat (apply Forall_cons; split;
        [try (by apply plain_record_of_party)|]); [|apply Forall_nil_2].
rewrite headers_eq. split; [done|]. split; [done|].
repeat (apply Forall_cons; split; [done|]). apply Forall_nil_2.
- rewrite Hf1, Hf2, Hf3. unfold PARTIES.
repeat (apply Forall2_cons; split; [by eexists _, _, _, _|]).
apply Forall2_nil_2.
Qed.
End TabularFile.

Lemma tabular_header_and_rows_witness :
  ∃ (text : string) (data : list (list string)),
    read_text (CSV_PATH (platform := sample_platform))
      (write_csv_and_json (platform := sample_platform)
         (new_random_snapshot sample_random).1 sample_world).2 = Some text ∧
    text = "Party,Color,2020_Seats,2020_Leads,2024_Seats,2024_Leads" +:+
           Csv.lineterminator +:+ String.concat "" (Csv.record <$> data) ∧
    Csv.reader text =
      ["Party"; "Color"; "2020_Seats"; "2020_Leads"; "2024_Seats"; "2024_Leads"]
        :: data ∧
    Forall2 (λ p fields, ∃ s1 l1 s2 l2 : Z,
               fields = [name p; color p; py_str_int s1; py_str_int l1;
                         py_str_int s2; py_str_int l2])
      PARTIES data.
Proof.
  apply (tabular_header_and_rows (platform := sample_platform) sample_random sample_world).
  vm_compute. reflexivity.
Defined.

(** ** Reading back what the json encoder wrote *)

Lemma scan_escape_char (c : ascii) (t : string) :
  Json.scan_string (Json.escape_char c +:+ t) =
  Json.cons_char c (Json.scan_string t).
Proof. by_cases_on_char c. Qed.

Lemma scan_string_escape (s rest : string) :
  Json.scan_string (Json.escape s +:+ String dquote rest) = Some (s, rest).
Proof.
  induction s as [|c s IH]; [done|].
  cbn [Json.escape]. rewrite string_app_assoc, scan_escape_char, IH. done.
Qed.

Lemma encode_basestring_app (s rest : string) :
  Json.encode_basestring s +:+ rest =
  String dquote (Json.escape s +:+ String dquote rest).
Proof.
  unfold Json.encode_basestring. by rewrite string_app_cons, string_app_assoc.
Qed.

Lemma ends_number_no_digit (rest : string) :
  Json.ends_number rest = true → no_digit_head rest.
Proof.
  destruct rest as [|c rest]; [done|]. simpl.
  intros Hc%negb_true_iff. by repeat (apply orb_false_elim in Hc as [Hc _]).
Qed.

Lemma span_digits_app (ds rest : string) :
  string_forall is_digit ds = true → no_digit_head rest →
  Json.span_digits (ds +:+ rest) = (ds, rest).
Proof.
  intros Hds Hrest. induction ds as [|c ds IH].
  - rewrite string_app_nil_l. destruct rest as [|c rest]; [done|].
    simpl in *. by rewrite Hrest.
  - simpl in Hds. apply andb_true_iff in Hds as [Hc Hds].
    rewrite string_app_cons. simpl. by rewrite Hc, (IH Hds).
Qed.

Lemma scan_nat_uint (d : uint) (rest : string) :
  d ≠ Nil → Json.ends_number rest = true →
  Json.scan_nat (NilEmpty.string_of_uint d +:+ rest) = Some (Z.of_uint d, rest).
Proof.
  intros Hnil Hrest. unfold Json.scan_nat.
  rewrite span_digits_app;
    [|apply digits_string_of_uint|by apply ends_number_no_digit].
  pose proof (string_of_uint_nonempty d Hnil) as Hne.
  destruct (NilEmpty.string_of_uint d) as [|c ds] eqn:Hd; [done|].
  rewrite Hrest, <- Hd, NilEmpty.usu. done.
Qed.

Lemma scan_int_digit (c : ascii) (s : string) :
  is_digit c = true → Json.scan_int (String c s) = Json.scan_nat (String c s).
Proof. intros Hc. by by_cases_on_char c. Qed.

Lemma scan_int_str_int (z : Z) (rest : string) :
  Json.ends_number rest = true →
  Json.scan_int (py_str_int z +:+ rest) = Some (z, rest).
Proof.
  intros Hrest. destruct (py_str_int_spec z) as (d & Hnil & Habs & ->).
  pose proof (scan_nat_uint d rest Hnil Hrest) as Hscan.
  destruct (z <? 0) eqn:Hneg.
  - rewrite string_app_cons. cbn [Json.scan_int]. rewrite Hscan. simpl.
    do 2 f_equal. apply Z.ltb_lt in Hneg. lia.
  - pose proof (string_of_uint_nonempty d Hnil) as Hne.
    pose proof (digits_string_of_uint d) as Hds.
    destruct (NilEmpty.string_of_uint d) as [|c ds]; [done|].
    simpl in Hds. apply andb_true_iff in Hds as [Hc _].
    rewrite string_app_cons in *. rewrite (scan_int_digit _ _ Hc), Hscan.
    do 2 f_equal. apply Z.ltb_ge in Hneg. lia.
Qed.

Lemma skip_ws_spaces (n : nat) (s : string) :
  Json.skip_ws (Json.spaces n +:+ s) = Json.skip_ws s.
Proof.
  unfold Json.spaces. induction n as [|n IH]; [done|].
  cbn [replicate]. rewrite string_concat_empty_cons, string_app_assoc.
  by rewrite string_app_cons, string_app_nil_l.
Qed.

Lemma skip_ws_newline_indent (o : Json.options) (level : nat) (s : string) :
  Json.skip_ws (Json.newline_indent o level +:+ s) = Json.skip_ws s.
Proof.
  unfold Json.newline_indent. destruct (Json.indent o); [|done].
  rewrite string_app_cons. cbn [Json.skip_ws Json.is_ws LF].
  apply skip_ws_spaces.
Qed.

Lemma skip_ws_value_head (s : string) : value_head s → Json.skip_ws s = s.
Proof. destruct s as [|c s]; [done|]. simpl. by intros [-> _]. Qed.

Lemma py_str_int_head (z : Z) :
  ∃ c s, py_str_int z = String c s ∧ (c = "-"%char ∨ is_digit c = true).
Proof.
  destruct (py_str_int_spec z) as (d & Hnil & _ & ->).
  pose proof (string_of_uint_nonempty d Hnil) as Hne.
  pose proof (digits_string_of_uint d) as Hds.
  destruct (z <? 0); [by eauto|].
  destruct (NilEmpty.string_of_uint d) as [|c ds]; [done|].
  simpl in Hds. apply andb_true_iff in Hds as [Hc _]. eauto.
Qed.

Lemma string_concat_cons2 (sep a b : string) (l : list string) :
  String.concat sep (a :: b :: l) = a +:+ sep +:+ String.concat sep (b :: l).
Proof. reflexivity. Qed.

Lemma string_concat_cons (sep a : string) (l : list string) :
  l ≠ [] → String.concat sep (a :: l) = a +:+ sep +:+ String.concat sep l.
Proof. by destruct l. Qed.

Lemma iterencode_list (o : Json.options) (x : Json.value) (l : list Json.value)
    (level : nat) :
  Json.iterencode o (Json.JList (x :: l)) level =
  "[" +:+ Json.newline_indent o (S level) +:+
  String.concat (Json.item_separator o +:+ Json.newline_indent o (S level))
    ((λ y, Json.iterencode o y (S level)) <$> x :: l) +:+
  Json.newline_indent o level +:+ "]".
Proof. reflexivity. Qed.

Lemma iterencode_dict (o : Json.options) (kv : string * Json.value)
    (l : list (string * Json.value)) (level : nat) :
  Json.iterencode o (Json.JDict (kv :: l)) level =
  "{" +:+ Json.newline_indent o (S level) +:+
  String.concat (Json.item_separator o +:+ Json.newline_indent o (S level))
    ((λ kv, Json.encoder o kv.1 +:+ Json.key_separator +:+
            Json.iterencode o kv.2 (S level)) <$> kv :: l) +:+
  Json.newline_indent o level +:+ "}".
Proof. reflexivity. Qed.

Lemma encoder_head (o : Json.options) (s rest : string) :
  ∃ t, Json.encoder o s +:+ rest = String dquote t.
Proof.
  unfold Json.encoder, Json.encode_basestring_ascii, Json.encode_basestring.
  destruct (Json.ensure_ascii o); rewrite string_app_cons; eauto.
Qed.

Lemma iterencode_head (o : Json.options) (v : Json.value) (level : nat)
    (rest : string) :
  value_head (Json.iterencode o v level +:+ rest).
Proof.
  destruct v as [|b|z|s|items|items].
  - cbn [Json.iterencode]. by rewrite string_app_cons.
  - destruct b; cbn [Json.iterencode]; by rewrite string_app_cons.
  - cbn [Json.iterencode].
    destruct (py_str_int_head z) as (c & s & -> & Hc).
    rewrite string_app_cons. cbn [value_head].
    destruct Hc as [-> | Hc]; [by repeat split|].
    by by_cases_on_char c.
  - cbn [Json.iterencode].
    destruct (encoder_head o s rest) as [t ->]. by repeat split.
  - destruct items; [cbn [Json.iterencode]; by rewrite string_app_cons|].
    by rewrite iterencode_list, !string_app_cons.
  - destruct items; [cbn [Json.iterencode]; by rewrite string_app_cons|].
    by rewrite iterencode_dict, !string_app_cons.
Qed.

Lemma string_concat_head (sep a : string) (l : list string) :
  ∃ t, String.concat sep (a :: l) = a +:+ t.
Proof.
  destruct l as [|b l]; [exists ""; by rewrite string_app_nil_r|].
  rewrite string_concat_cons2. eauto.
Qed.

Lemma at_closer_value_head (c : ascii) (s : string) :
  c = "]"%char ∨ c = "}"%char → value_head s → Json.at_closer c s = None.
Proof.
  destruct s as [|d s]; [done|]. intros Hc (_ & H1 & H2). simpl.
  destruct (Ascii.eqb_spec d c) as [->|]; [|done]. by destruct Hc.
Qed.

Lemma item_separator_shape (o : Json.options) (t : string) :
  ∃ r0, Json.item_separator o +:+ t = String "," r0 ∧
        Json.skip_ws r0 = Json.skip_ws t.
Proof.
  unfold Json.item_separator. destruct (Json.indent o).
  - exists t. by rewrite string_app_cons, string_app_nil_l.
  - exists (String " " t). by rewrite !string_app_cons, string_app_nil_l.
Qed.

Lemma ends_number_closing (o : Json.options) (level : nat) (c : ascii)
    (rest : string) :
  c = "]"%char ∨ c = "}"%char →
  Json.ends_number (Json.newline_indent o level +:+ String c rest) = true.
Proof.
  unfold Json.newline_indent.
  intros [-> | ->]; destruct (Json.indent o); by rewrite ?string_app_cons.
Qed.

Lemma skip_ws_closing (o : Json.options) (level : nat) (c : ascii)
    (rest : string) :
  c = "]"%char ∨ c = "}"%char →
  Json.skip_ws (Json.newline_indent o level +:+ String c rest) = String c rest.
Proof. intros [-> | ->]; by rewrite skip_ws_newline_indent. Qed.

Lemma scan_value_number (n : nat) (c : ascii) (s : string) :
  c = "-"%char ∨ is_digit c = true →
  Json.scan_value (S n) (String c s) =
  '(z, rest) ← Json.scan_int (String c s); Some (Json.JInt z, rest).
Proof. intros [-> | Hc]; [done|]. by by_cases_on_char c. Qed.

Section JsonRoundTrip.
Context (o : Json.options) (Hutf8 : Json.ensure_ascii o = false).

Lemma scan_items_encoded (items : list Json.value) :
Forall (scans_back o) items → items ≠ [] →
∀ (level closing : nat) (rest : string) (fuel : nat),
(sum_list ((λ x, S (Json.size x)) <$> items) ≤ fuel)%nat →
Json.scan_items fuel
  (String.concat (Json.item_separator o +:+ Json.newline_indent o level)
     ((λ x, Json.iterencode o x level) <$> items) +:+
   Json.newline_indent o closing +:+ String "]" rest)
= Some (items, rest).
Proof.
induction 1 as [|x l Hx _ IH]; [done|].
intros _ level closing rest [|n] Hfuel; [simpl in Hfuel; lia|].
destruct l as [|y l]; simpl in Hfuel.
- cbn [fmap list_fmap String.concat Json.scan_items].
rewrite Hx; [|lia|by apply ends_number_closing; left]. simpl.
by rewrite skip_ws_closing by (by left).
- rewrite (fmap_cons _ x), string_concat_cons by (by intros ?%fmap_nil_inv).
rewrite !string_app_assoc. cbn [Json.scan_items].
destruct (item_separator_shape o
            (Json.newline_indent o level +:+
             String.concat (Json.item_separator o +:+ Json.newline_indent o level)
               ((λ x, Json.iterencode o x level) <$> y :: l) +:+
             Json.newline_indent o closing +:+ String "]" rest))
  as (r0 & -> & Hr0).
rewrite Hx; [|lia|done]. simpl. rewrite Hr0, skip_ws_newline_indent.
rewrite skip_ws_value_head.
2:{ rewrite fmap_cons.
    destruct (string_concat_head
                (Json.item_separator o +:+ Json.newline_indent o level)
                (Json.iterencode o y level)
                ((λ x, Json.iterencode o x level) <$> l)) as [t ->].
    rewrite string_app_assoc. apply iterencode_head. }
rewrite IH; [done|done|simpl; lia].
Qed.

Lemma scan_members_encoded (items : list (string * Json.value)) :
Forall (λ kv, scans_back o kv.2) items → items ≠ [] →
∀ (level closing : nat) (rest : string) (fuel : nat),
(sum_list ((λ kv, S (Json.size kv.2)) <$> items) ≤ fuel)%nat →
Json.scan_members fuel
  (String.concat (Json.item_separator o +:+ Json.newline_indent o level)
     ((λ kv, Json.encoder o kv.1 +:+ Json.key_separator +:+
             Json.iterencode o kv.2 level) <$> items) +:+
   Json.newline_indent o closing +:+ String "}" rest)
= Some (items, rest).
Proof.
induction 1 as [|[k x] l Hx _ IH]; [done|].
intros _ level closing rest [|n] Hfuel; [simpl in Hfuel; lia|].
assert (∀ t, Json.scan_members (S n)
             ((Json.encoder o k +:+ Json.key_separator +:+
               Json.iterencode o x level) +:+ t) =
           '(v, r3) ← Json.scan_value n (Json.iterencode o x level +:+ t);
           match Json.skip_ws r3 with
           | String "," r4 =>
             '(kvs, rest) ← Json.scan_members n (Json.skip_ws r4);
             Some ((k, v) :: kvs, rest)
           | String "}" r4 => Some ([(k, v)], r4)
           | _ => None
           end) as Hmember.
{ intros t. unfold Json.encoder. rewrite Hutf8.
rewrite !string_app_assoc, encode_basestring_app.
cbn [Json.scan_members]. rewrite scan_string_escape. simpl.
rewrite skip_ws_value_head by apply iterencode_head. done. }
destruct l as [|[k' y] l]; simpl in Hfuel.
- cbn [fmap list_fmap String.concat fst snd]. rewrite Hmember.
rewrite Hx; [|simpl; lia|by apply ends_number_closing; right]. simpl.
by rewrite skip_ws_closing by (by right).
- rewrite (fmap_cons _ (k, x)), string_concat_cons by (by intros ?%fmap_nil_inv).
cbn [fst snd].
rewrite !(string_app_assoc (Json.item_separator o)).
rewrite (string_app_assoc _ _ (Json.newline_indent o closing +:+ _)).
rewrite Hmember, !string_app_assoc.
destruct (item_separator_shape o
            (Json.newline_indent o level +:+
             String.concat (Json.item_separator o +:+ Json.newline_indent o level)
               ((λ kv, Json.encoder o kv.1 +:+ Json.key_separator +:+
                       Json.iterencode o kv.2 level) <$> (k', y) :: l) +:+
             Json.newline_indent o closing +:+ String "}" rest))
  as (r0 & -> & Hr0).
rewrite Hx; [|simpl; lia|done]. simpl. rewrite Hr0, skip_ws_newline_indent.
rewrite skip_ws_value_head.
2:{ rewrite fmap_cons. cbn [fst snd].
    destruct (string_concat_head
                (Json.item_separator o +:+ Json.newline_indent o level)
                (Json.encoder o k' +:+ Json.key_separator +:+
                 Json.iterencode o y level)
                ((λ kv, Json.encoder o kv.1 +:+ Json.key_separator +:+
                        Json.iterencode o kv.2 level) <$> l)) as [t ->].
    rewrite string_app_assoc.
    destruct (encoder_head o k'
                ((Json.key_separator +:+ Json.iterencode o y level) +:+ t +:+
                 Json.newline_indent o closing +:+ String "}" rest))
      as [t' Ht'].
    rewrite !string_app_assoc in *. rewrite Ht'. by repeat split. }
rewrite IH; [done|done|simpl; lia].
Qed.
Lemma scan_value_string (n : nat) (r : string) :
Json.scan_value (S n) (String dquote r) =
'(str, rest) ← Json.scan_string r; Some (Json.JStr str, rest).
Proof. reflexivity. Qed.

Lemma scan_value_encoded (v : Json.value) : scans_back o v.
Proof.
induction v as [|b|z|s|items IH|items IH] using Json.value_ind;
intros level rest [|n] Hfuel Hrest; try (simpl in Hfuel; lia).
- reflexivity.
- by destruct b.
- cbn [Json.iterencode].
pose proof (scan_int_str_int z rest Hrest) as Hscan.
destruct (py_str_int_head z) as (c & s & Hz & Hc).
rewrite Hz, string_app_cons in *.
by rewrite scan_value_number, Hscan.
- cbn [Json.iterencode]. unfold Json.encoder.
rewrite Hutf8, encode_basestring_app, scan_value_string.
by rewrite scan_string_escape.
- destruct items as [|x l]; [reflexivity|].
rewrite iterencode_list, !string_app_assoc, string_app_cons, string_app_nil_l.
cbn [Json.scan_value]. rewrite skip_ws_newline_indent.
rewrite skip_ws_value_head.
2:{ rewrite fmap_cons.
    destruct (string_concat_head
                (Json.item_separator o +:+ Json.newline_indent o (S level))
                (Json.iterencode o x (S level))
                ((λ y, Json.iterencode o y (S level)) <$> l)) as [t ->].
    rewrite string_app_assoc. apply iterencode_head. }
rewrite at_closer_value_head; [|by left|].
2:{ rewrite fmap_cons.
    destruct (string_concat_head
                (Json.item_separator o +:+ Json.newline_indent o (S level))
                (Json.iterencode o x (S level))
                ((λ y, Json.iterencode o y (S level)) <$> l)) as [t ->].
    rewrite string_app_assoc. apply iterencode_head. }
rewrite (string_app_cons "]" "" rest), string_app_nil_l.
rewrite scan_items_encoded; [done|done|done|]. simpl in Hfuel. simpl. lia.
- destruct items as [|[k x] l]; [reflexivity|].
rewrite iterencode_dict, !string_app_assoc, string_app_cons, string_app_nil_l.
cbn [Json.scan_value]. rewrite skip_ws_newline_indent.
assert (∀ t, value_head
               (String.concat
                  (Json.item_separator o +:+ Json.newline_indent o (S level))
                  ((λ kv, Json.encoder o kv.1 +:+ Json.key_separator +:+
                          Json.iterencode o kv.2 (S level)) <$> (k, x) :: l)
                +:+ t)) as Hhead.
{ intros t. rewrite fmap_cons. cbn [fst snd].
  destruct (string_concat_head
              (Json.item_separator o +:+ Json.newline_indent o (S level))
              (Json.encoder o k +:+ Json.key_separator +:+
               Json.iterencode o x (S level))
              ((λ kv, Json.encoder o kv.1 +:+ Json.key_separator +:+
                      Json.iterencode o kv.2 (S level)) <$> l)) as [t' ->].
  rewrite !string_app_assoc.
  destruct (encoder_head o k
              (Json.key_separator +:+ Json.iterencode o x (S level) +:+ t' +:+ t))
    as [t'' ->].
  by repeat split. }
rewrite skip_ws_value_head by apply Hhead.
rewrite at_closer_value_head; [|by right|apply Hhead].
rewrite (string_app_cons "}" "" rest), string_app_nil_l.
rewrite scan_members_encoded; [done|done|done|]. simpl in Hfuel. simpl. lia.
Qed.
End JsonRoundTrip.

Lemma string_concat_length_sum {A} (size_of : A → nat) (text_of : A → string)
    (sep : string) (items : list A) :
  (1 ≤ String.length sep)%nat →
  Forall (λ x, (size_of x ≤ String.length (text_of x))%nat) items →
  (sum_list ((λ x, S (size_of x)) <$> items)
   ≤ S (String.length (String.concat sep (text_of <$> items))))%nat.
Proof.
  intros Hsep. induction 1 as [|x l Hx Hl IH]; [simpl; lia|].
  destruct l as [|y l]; [simpl in *; lia|].
  rewrite (fmap_cons text_of), string_concat_cons by (by intros ?%fmap_nil_inv).
  rewrite !string_app_length. rewrite fmap_cons. cbn [sum_list] in *. simpl in *. lia.
Qed.

Lemma item_separator_length (o : Json.options) (t : string) :
  (1 ≤ String.length (Json.item_separator o +:+ t))%nat.
Proof.
  rewrite string_app_length. unfold Json.item_separator.
  destruct (Json.indent o); simpl; lia.
Qed.

Lemma size_le_length (o : Json.options) (v : Json.value) (level : nat) :
  (Json.size v ≤ String.length (Json.iterencode o v level))%nat.
Proof.
  revert level.
  induction v as [|b|z|s|items IH|items IH] using Json.value_ind; intros level.
  - simpl. lia.
  - destruct b; simpl; lia.
  - cbn [Json.iterencode Json.size].
    destruct (py_str_int_head z) as (c & s & -> & _). simpl. lia.
  - cbn [Json.iterencode Json.size].
    destruct (encoder_head o s "") as [t Ht]. rewrite string_app_nil_r in Ht.
    rewrite Ht. simpl. lia.
  - destruct items as [|x l]; [simpl; lia|].
    rewrite iterencode_list, !string_app_length. cbn [Json.size].
    assert (Forall (λ y, (Json.size y
                          ≤ String.length (Json.iterencode o y (S level)))%nat)
              (x :: l)) as Hitems.
    { eapply Forall_impl; [exact IH|]. intros y Hy. apply Hy. }
    pose proof (string_concat_length_sum Json.size
                  (λ y, Json.iterencode o y (S level))
                  (Json.item_separator o +:+ Json.newline_indent o (S level))
                  (x :: l) (item_separator_length o _) Hitems) as Hsum.
    simpl in *. lia.
  - destruct items as [|kv l]; [simpl; lia|].
    rewrite iterencode_dict, !string_app_length. cbn [Json.size].
    assert (Forall (λ kv : string * Json.value,
                      (Json.size kv.2
                       ≤ String.length
                           (Json.encoder o kv.1 +:+ Json.key_separator +:+
                            Json.iterencode o kv.2 (S level)))%nat)
              (kv :: l)) as Hitems.
    { eapply Forall_impl; [exact IH|]. intros y Hy. simpl.
      rewrite !string_app_length. specialize (Hy (S level)). lia. }
    pose proof (string_concat_length_sum (λ kv, Json.size kv.2)
                  (λ kv, Json.encoder o kv.1 +:+ Json.key_separator +:+
                         Json.iterencode o kv.2 (S level))
                  (Json.item_separator o +:+ Json.newline_indent o (S level))
                  (kv :: l) (item_separator_length o _) Hitems) as Hsum.
    simpl in *. lia.
Qed.

(** Decoding the text written with [ensure_ascii=False] gives the encoded
    value back, whatever the indentation. *)
Lemma loads_dumps (o : Json.options) (v : Json.value) :
  Json.ensure_ascii o = false → Json.loads (Json.dumps o v) = Some v.
Proof.
  intros Hutf8. unfold Json.loads, Json.dumps.
  pose proof (iterencode_head o v 0 "") as Hhead.
  pose proof (scan_value_encoded o Hutf8 v 0%nat ""
                (String.length (Json.iterencode o v 0))
                (size_le_length o v 0) eq_refl) as Hscan.
  rewrite string_app_nil_r in *.
  by rewrite skip_ws_value_head, Hscan.
Qed.

(** ** The two files agree *)

Lemma csv_years_headers : csv_years headers = YEARS.
Proof. reflexivity. Qed.

(** The tuples a consumer reads from one record of the tabular file. *)
Lemma csv_record_tuples_fields (party colour : string) (s1 l1 s2 l2 : Z) :
  csv_record_tuples YEARS
    (list_to_map
       (zip headers [party; colour; py_str_int s1; py_str_int l1;
                     py_str_int s2; py_str_int l2]))
  = Some [(party, "2020", s1, l1); (party, "2024", s2, l2)].
Proof.
  set (d := list_to_map _).
  assert (d !! "Party" = Some party) as Hparty by reflexivity.
  assert (d !! seats_key "2020" = Some (py_str_int s1)) as Hs1 by reflexivity.
  assert (d !! leads_key "2020" = Some (py_str_int l1)) as Hl1 by reflexivity.
  assert (d !! seats_key "2024" = Some (py_str_int s2)) as Hs2 by reflexivity.
  assert (d !! leads_key "2024" = Some (py_str_int l2)) as Hl2 by reflexivity.
  unfold csv_record_tuples, YEARS. rewrite Hparty. cbn [mbind option_bind mapM].
  rewrite Hs1, Hl1, Hs2, Hl2. cbn [mbind option_bind].
  by rewrite !py_int_of_str_int.
Qed.

Section RowViews.
Context {platform : Platform}.

(** The entry of the structured document for one generated row, and the
tuples a consumer reads from it. *)
Lemma party_entry_of (p : Party) (r : Row) :
row_of p r →
∃ (entry : Json.value) (s1 l1 s2 l2 : Z),
party_entry r = inr entry ∧
json_party_tuples entry =
  Some [(name p, "2020", s1, l1); (name p, "2024", s2, l2)] ∧
row_tuples r = Some [(name p, "2020", s1, l1); (name p, "2024", s2, l2)] ∧
row_fields headers r =
  [name p; color p; py_str_int s1; py_str_int l1; py_str_int s2; py_str_int l2].
Proof.
intros Hrow.
destruct (row_fields_of p r Hrow) as (s1 & l1 & s2 & l2 & Hfields & Htuples).
apply row_of_inv in Hrow as (s1' & l1' & s2' & l2' & Hp & Hc & Hs1 & Hl1 & Hs2 & Hl2).
assert (s1' = s1 ∧ l1' = l1 ∧ s2' = s2 ∧ l2' = l2) as (-> & -> & -> & ->).
{ unfold row_tuples in Htuples. rewrite Hp in Htuples. unfold YEARS in Htuples.
cbn [mapM] in Htuples.
change (seats_key "2020") with "2020_Seats" in Htuples.
change (leads_key "2020") with "2020_Leads" in Htuples.
change (seats_key "2024") with "2024_Seats" in Htuples.
change (leads_key "2024") with "2024_Leads" in Htuples.
rewrite Hs1, Hl1, Hs2, Hl2 in Htuples.
cbv [mbind option_bind mret option_ret] in Htuples.
by injection Htuples as -> -> -> ->. }
eexists _, s1, l1, s2, l2. split.
{ unfold party_entry. rewrite Hp. cbn [rbind]. unfold YEARS.
cbn [rmap]. unfold yearly_entry.
change (seats_key "2020") with "2020_Seats".
change (leads_key "2020") with "2020_Leads".
change (seats_key "2024") with "2024_Seats".
change (leads_key "2024") with "2024_Leads".
rewrite Hs1, Hl1, Hs2, Hl2. reflexivity. }
split; [reflexivity|done].
Qed.
End RowViews.

Section FilesAgree.
Context {platform : Platform}.

(** What the reader makes of the tabular text of three generated rows. *)
Lemma reader_csv_text (rows : list Row) :
Forall (λ r, plain_record (row_fields headers r)) rows →
Csv.reader (csv_text headers rows) = headers :: (row_fields headers <$> rows).
Proof.
intros Hrows. unfold csv_text.
rewrite <- string_concat_empty_cons, <- !fmap_cons.
apply reader_records, Forall_cons. split; [|by apply Forall_fmap].
rewrite headers_eq. split; [done|]. split; [done|].
repeat (apply Forall_cons; split; [done|]). apply Forall_nil_2.
Qed.

(** C1: after a successful generation cycle, the tabular file and the
structured file, read back, describe the same set of
(party, year, seats, leads) tuples, namely those of the snapshot the
cycle generated. *)
Theorem files_describe_same_tuples (g : Random) (w : World) :
(write_csv_and_json (new_random_snapshot g).1 w).1 = inr tt →
∃ tuples : list result_tuple,
snapshot_tuples (new_random_snapshot g).1 = Some tuples ∧
csv_file_tuples (write_csv_and_json (new_random_snapshot g).1 w).2
  = Some (list_to_set tuples) ∧
json_file_tuples (write_csv_and_json (new_random_snapshot g).1 w).2
  = Some (list_to_set tuples).
Proof.
intros Hok.
destruct (write_csv_and_json_run _ _ Hok) as (doc & Hdoc & Hfiles).
destruct (snapshot_rows_inv g) as (r1 & r2 & r3 & Hrows & H1 & H2 & H3).
rewrite Hrows in *.
destruct (party_entry_of _ _ H1) as (e1 & a1 & b1 & c1 & d1 & He1 & Hj1 & Ht1 & Hf1).
destruct (party_entry_of _ _ H2) as (e2 & a2 & b2 & c2 & d2 & He2 & Hj2 & Ht2 & Hf2).
destruct (party_entry_of _ _ H3) as (e3 & a3 & b3 & c3 & d3 & He3 & Hj3 & Ht3 & Hf3).
exists [("Alpha", "2020", a1, b1); ("Alpha", "2024", c1, d1);
      ("Beta", "2020", a2, b2); ("Beta", "2024", c2, d2);
      ("Gamma", "2020", a3, b3); ("Gamma", "2024", c3, d3)].
split_and!.
- unfold snapshot_tuples. cbn [mapM]. by rewrite Ht1, Ht2, Ht3.
- unfold csv_file_tuples, read_text. rewrite Hfiles.
rewrite lookup_insert_ne by (apply not_eq_sym, csv_path_ne_json_path).
rewrite lookup_insert_eq. cbn [fmap option_fmap option_map mbind option_bind].
rewrite decode_encode_utf8.
unfold csv_tuples, Csv.dict_reader. rewrite reader_csv_text.
2:{ rewrite !Forall_cons, Hf1, Hf2, Hf3.
    split_and!; [by apply plain_record_of_party..|done]. }
cbn [mbind option_bind]. rewrite csv_years_headers.
rewrite !fmap_cons, fmap_nil, Hf1, Hf2, Hf3.
assert (∀ (x y z : string) (a b c : list string),
          filter (λ row : list string, row ≠ []) [x :: a; y :: b; z :: c] =
          [x :: a; y :: b; z :: c]) as -> by done.
cbn [fmap list_fmap mapM]. cbn [name color].
by rewrite !csv_record_tuples_fields.
- unfold json_file_tuples, read_text. rewrite Hfiles, lookup_insert_eq.
cbn [fmap option_fmap option_map mbind option_bind].
rewrite decode_encode_utf8. unfold json_tuples.
rewrite loads_dumps by done. cbn [mbind option_bind].
unfold json_data in Hdoc. cbn [rmap] in Hdoc.
rewrite He1, He2, He3 in Hdoc. cbn [rbind] in Hdoc.
injection Hdoc as <-.
change (Json.get "parties" _) with (Some (Json.JList [e1; e2; e3])).
cbn [mbind option_bind as_list mapM]. by rewrite Hj1, Hj2, Hj3.
Qed.
End FilesAgree.

Lemma files_describe_same_tuples_witness :
  ∃ tuples : list result_tuple,
    snapshot_tuples (new_random_snapshot sample_random).1 = Some tuples ∧
    csv_file_tuples (platform := sample_platform)
      (write_csv_and_json (platform := sample_platform)
         (new_random_snapshot sample_random).1 sample_world).2
      = Some (list_to_set tuples) ∧
    json_file_tuples (platform := sample_platform)
      (write_csv_and_json (platform := sample_platform)
         (new_random_snapshot sample_random).1 sample_world).2
      = Some (list_to_set tuples).
Proof.
  apply (files_describe_same_tuples (platform := sample_platform)
           sample_random sample_world).
  vm_compute. reflexivity.
Defined.

(** ** The background updater *)

Lemma keeps_schedule_ret {A} (a : A) : keeps_schedule (ret a).
Proof. by intros w. Qed.

Lemma keeps_schedule_lift {A} (r : pyexc + A) : keeps_schedule (lift r).
Proof. by intros w. Qed.

Lemma keeps_schedule_bind {A B} (m : IO A) (k : A → IO B) :
  keeps_schedule m → (∀ a, keeps_schedule (k a)) → keeps_schedule (bind m k).
Proof.
  intros Hm Hk w. unfold bind. specialize (Hm w).
  destruct (m w) as [[e|a] w1]; [done|].
  specialize (Hk a w1). unfold same_schedule in *. simpl in *.
  destruct Hm as (? & ? & ? & ?), Hk as (? & ? & ? & ?).
  split_and!; congruence.
Qed.

Lemma keeps_schedule_try {A} (m : IO A) (h : pyexc → IO A) :
  keeps_schedule m → (∀ e, keeps_schedule (h e)) → keeps_schedule (try_except m h).
Proof.
  intros Hm Hh w. unfold try_except. specialize (Hm w).
  destruct (m w) as [[e|a] w1]; [|done].
  specialize (Hh e w1). unfold same_schedule in *. simpl in *.
  destruct Hm as (? & ? & ? & ?), Hh as (? & ? & ? & ?).
  split_and!; congruence.
Qed.

Lemma keeps_schedule_open_w (path : string) : keeps_schedule (open_w path).
Proof.
  intros w. unfold open_w.
  destruct (faults w) as [|[msg|] rest]; try case_decide; done.
Qed.

Lemma keeps_schedule_file_write (path : string) (data : list byte) :
  keeps_schedule (file_write path data).
Proof. by intros w. Qed.

Lemma keeps_schedule_print (line : string) : keeps_schedule (print line).
Proof. by intros w. Qed.

Lemma keeps_schedule_print_err (line : string) : keeps_schedule (print_err line).
Proof. by intros w. Qed.

Lemma keeps_schedule_write_bytes (path : string) (data : list byte) :
  keeps_schedule (write_bytes path data).
Proof.
  apply keeps_schedule_bind; [apply keeps_schedule_open_w|].
  intros _. apply keeps_schedule_file_write.
Qed.

Section UpdaterProofs.
Context {platform : Platform}.

Lemma keeps_schedule_write_rows (hs : list string) (rows : list Row) :
keeps_schedule (write_rows hs rows).
Proof.
induction rows as [|r rows IH]; [apply keeps_schedule_ret|].
cbn [write_rows]. apply keeps_schedule_bind; [apply keeps_schedule_lift|].
intros line. apply keeps_schedule_bind; [apply keeps_schedule_file_write|].
by intros _.
Qed.

Lemma keeps_schedule_write_csv_and_json (rows : list Row) :
keeps_schedule (write_csv_and_json rows).
Proof.
unfold write_csv_and_json, write_csv, write_text.
repeat (apply keeps_schedule_bind; [|intros ?]);
auto using keeps_schedule_open_w, keeps_schedule_lift,
  keeps_schedule_file_write, keeps_schedule_write_rows,
  keeps_schedule_write_bytes.
Qed.

(** A generation cycle, failed or not, leaves the clock and the stop event
alone and asks for exactly one generator. *)
Lemma generate_schedule (what : string) (w : World) :
clock (generate what w).2 = clock w ∧
stop_at (generate what w).2 = stop_at w ∧
entropy_source (generate what w).2 = entropy_source w ∧
seeded (generate what w).2 = seeded w ++ [clock w].
Proof.
assert (∃ (k : IO unit) (w1 : World),
        generate what w = k w1 ∧ keeps_schedule k ∧
        clock w1 = clock w ∧ stop_at w1 = stop_at w ∧
        entropy_source w1 = entropy_source w ∧
        seeded w1 = seeded w ++ [clock w]) as (k & w1 & -> & Hk & H1).
{ exists (let! _ := write_csv_and_json
                     (new_random_snapshot
                        (entropy_source w (length (seeded w)))).1 in
        let! t := now in print ("[" +:+ strftime t +:+ "] " +:+ what)),
       (mkWorld (files w) (dirs w) (faults w) (stdout w) (stderr w) (clock w)
          (stop_at w) (entropy_source w) (seeded w ++ [clock w])).
split; [reflexivity|]. split; [|done].
apply keeps_schedule_bind; [apply keeps_schedule_write_csv_and_json|].
intros _. apply keeps_schedule_bind; [by intros ?|].
intros t. apply keeps_schedule_print. }
destruct (Hk w1) as (? & ? & ? & ?), H1 as (? & ? & ? & ?).
split_and!; congruence.
Qed.

Lemma guarded_generate_schedule (w : World) :
∃ w', try_except (generate "Data updated")
      (λ e, print_err ("WARNING: Failed to update data: " +:+ exc_str e)) w
    = (inr tt, w') ∧
    clock w' = clock w ∧ stop_at w' = stop_at w ∧
    entropy_source w' = entropy_source w ∧
    seeded w' = seeded w ++ [clock w].
Proof.
unfold try_except.
pose proof (generate_schedule "Data updated" w) as Hgen.
destruct (generate "Data updated" w) as [[e|[]] w1]; simpl in Hgen.
- eexists. split; [reflexivity|]. simpl. done.
- eexists. split; [reflexivity|]. done.
Qed.

(** Whatever happens in its cycles, the loop itself never raises: a failed
cycle is reported on the error stream and the next wait follows. *)
Lemma updater_loop_contains_failures (fuel : nat) (interval : Z) (w : World) :
∃ p, (updater_loop fuel interval w).1 = inr p.
Proof.
revert w. induction fuel as [|n IH]; intros w; [by eexists|].
cbn [updater_loop]. unfold bind at 1.
destruct (event_wait interval w) as [[e|[]] w1] eqn:Hwait.
- unfold event_wait in Hwait. by repeat case_match.
- by eexists.
- unfold bind at 1.
destruct (guarded_generate_schedule w1) as (w2 & -> & _). apply IH.
Qed.
End UpdaterProofs.

Section StopSignal.
Context {platform : Platform}.

Lemma event_wait_set (interval ts : Z) (w : World) :
stop_at w = Some ts → ts ≤ clock w + Z.max 0 interval →
event_wait interval w = (inr true, set_clock (Z.max (clock w) ts) w).
Proof.
intros Hstop Hts. unfold event_wait. rewrite Hstop.
by rewrite (proj2 (Z.leb_le _ _) Hts).
Qed.


Lemma updater_loop_set (n : nat) (interval ts : Z) (w : World) :
stop_at w = Some ts → ts ≤ clock w + Z.max 0 interval →
updater_loop (S n) interval w =
(inr Finished, set_clock (Z.max (clock w) ts) w).
Proof.
intros Hstop Hts. cbn [updater_loop]. unfold bind at 1.
by rewrite (event_wait_set interval ts w Hstop Hts).
Qed.




End StopSignal.


(** C3, at the initial cycle: when the very first attempt to open a file is
    refused, the exception leaves [run_updater]; nothing is reported on the
    error stream and no wait, hence no later cycle, ever takes place,
    however long the updater is observed. *)
Lemma failed_initial_cycle_ends_updater (fuel : nat) (interval : Z) :
  run_updater (platform := sample_platform) fuel interval refusing_world =
  (inl (OSError "[Errno 13] Permission denied"),
   mkWorld ∅ ∅ [] [] [] 0 None (entropy_source sample_world) [0]).
Proof. reflexivity. Qed.

(** The same refusal in a later cycle is contained: it is reported on the
    error stream and the following cycle takes place. *)
Lemma failed_later_cycle_is_contained :
  (run_updater (platform := sample_platform) 5 30 flaky_world).1 = inr Finished ∧
  stderr (run_updater (platform := sample_platform) 5 30 flaky_world).2 =
    ["WARNING: Failed to update data: [Errno 13] Permission denied"] ∧
  seeded (run_updater (platform := sample_platform) 5 30 flaky_world).2 =
    [0; 30; 60].
Proof. by vm_compute. Qed.


(** ** The request handler *)

(** A computation that returns hands its result and state to what follows. *)
Lemma bind_run {S A B} (m : Exn S A) (k : A → Exn S B) (s s' : S) (a : A) :
  m s = (inr a, s') → bind m k s = k a s'.
Proof. intros Hm. unfold bind. by rewrite Hm. Qed.

Section HandlerSteps.
Import Http NoCacheRequestHandler.
Context {platform : Platform}.
Context (req : Request).

Lemma now_run (h : Handler) (w : World) :
in_world now (mkSession h w) = (inr (clock w), mkSession h w).
Proof. reflexivity. Qed.

Lemma self_run (h : Handler) (w : World) :
self (mkSession h w) = (inr h, mkSession h w).
Proof. reflexivity. Qed.

Section Versioned.
Hypothesis Hversion : String.eqb (request_version req) "HTTP/0.9" = false.

Lemma append_line_run (l : hline) (unread : list byte) (buf : list hline)
(out : list chunk) :
append_line l (mkHandler req unread buf out) = mkHandler req unread (buf ++ [l]) out.
Proof. unfold append_line, sends_headers. cbn [request]. by rewrite Hversion. Qed.

Lemma send_header_run (keyword value : string) (unread : list byte)
(buf : list hline) (out : list chunk) (w : World) :
send_header keyword value (mkSession (mkHandler req unread buf out) w) =
(inr tt, mkSession (mkHandler req unread (buf ++ [HeaderLine keyword value]) out) w).
Proof. unfold send_header, update. cbn [handler world]. by rewrite append_line_run. Qed.

Lemma send_response_run (code : Z) (message : option string)
(unread : list byte) (buf : list hline) (out : list chunk) (w : World) :
send_response code message (mkSession (mkHandler req unread buf out) w) =
(inr tt,
mkSession
(mkHandler req unread
  (buf ++ [StatusLine "HTTP/1.0" code
             (default (from_option fst "" (responses code)) message);
           HeaderLine "Server" version_string;
           HeaderLine "Date" (date_time_string (clock w))])
  out)
w).
Proof.
unfold send_response.
erewrite bind_run; cycle 1.
{ unfold send_response_only, update. cbn [handler world].
rewrite append_line_run. reflexivity. }
cbv beta. erewrite bind_run by apply send_header_run.
erewrite bind_run by apply now_run. cbv beta.
rewrite send_header_run, <- !app_assoc. by destruct message.
Qed.

Lemma end_headers_run (unread : list byte) (buf : list hline)
(out : list chunk) (w : World) :
end_headers (mkSession (mkHandler req unread buf out) w) =
(inr tt,
mkSession
(mkHandler req unread []
  (out ++
   [Head (buf ++
          [HeaderLine "Cache-Control"
             "no-store, no-cache, must-revalidate, max-age=0";
           HeaderLine "Pragma" "no-cache";
           HeaderLine "Access-Control-Allow-Origin" "*"])]))
w).
Proof.
unfold end_headers.
do 3 (erewrite bind_run by apply send_header_run).
unfold base_end_headers, update, sends_headers.
cbn [handler world request rfile headers_buffer wfile].
by rewrite Hversion, <- !app_assoc.
Qed.
End Versioned.

Section Unversioned.
Hypothesis Hversion : String.eqb (request_version req) "HTTP/0.9" = true.

Lemma append_line_skip (l : hline) (unread : list byte) (buf : list hline)
(out : list chunk) :
append_line l (mkHandler req unread buf out) = mkHandler req unread buf out.
Proof. unfold append_line, sends_headers. cbn [request]. by rewrite Hversion. Qed.

Lemma send_header_skip (keyword value : string) (unread : list byte)
(buf : list hline) (out : list chunk) (w : World) :
send_header keyword value (mkSession (mkHandler req unread buf out) w) =
(inr tt, mkSession (mkHandler req unread buf out) w).
Proof. unfold send_header, update. cbn [handler world]. by rewrite append_line_skip. Qed.

Lemma send_response_skip (code : Z) (message : option string)
(unread : list byte) (buf : list hline) (out : list chunk) (w : World) :
send_response code message (mkSession (mkHandler req unread buf out) w) =
(inr tt, mkSession (mkHandler req unread buf out) w).
Proof.
unfold send_response.
erewrite bind_run; cycle 1.
{ unfold send_response_only, update. cbn [handler world].
rewrite append_line_skip. reflexivity. }
cbv beta. erewrite bind_run by apply send_header_skip.
erewrite bind_run by apply now_run. cbv beta.
by rewrite send_header_skip.
Qed.

Lemma end_headers_skip (unread : list byte) (buf : list hline)
(out : list chunk) (w : World) :
end_headers (mkSession (mkHandler req unread buf out) w) =
(inr tt, mkSession (mkHandler req unread buf out) w).
Proof.
unfold end_headers.
do 3 (erewrite bind_run by apply send_header_skip).
unfold base_end_headers, update, sends_headers.
cbn [handler world request]. by rewrite Hversion.
Qed.
End Unversioned.

Lemma wfile_write_run (data : list byte) (unread : list byte)
(buf : list hline) (out : list chunk) (w : World) :
wfile_write data (mkSession (mkHandler req unread buf out) w) =
(inr tt, mkSession (mkHandler req unread buf (out ++ [Body data])) w).
Proof. reflexivity. Qed.

Lemma send_json_run (code : Z) (payload : list byte)
(unread : list byte) (out : list chunk) (w : World) :
send_json code payload (mkSession (mkHandler req unread [] out) w) =
(inr tt,
mkSession
 (mkHandler req unread []
    (out ++ json_response (request_version req) (clock w) code payload))
 w).
Proof.
unfold send_json, json_response.
destruct (String.eqb (request_version req) "HTTP/0.9") eqn:Hversion.
- erewrite bind_run by by apply send_response_skip.
do 2 (erewrite bind_run by by apply send_header_skip).
erewrite bind_run by by apply end_headers_skip.
apply wfile_write_run.
- erewrite bind_run by by apply send_response_run.
do 2 (erewrite bind_run by by apply send_header_run).
erewrite bind_run by by apply end_headers_run.
rewrite wfile_write_run, <- !app_assoc. reflexivity.
Qed.

Lemma send_error_run (code : Z) (message : string)
(unread : list byte) (w : World) :
request_version req ≠ "HTTP/0.9" →
(200 <=? code) && negb (bool_decide (code ∈ [204; 205; 304])) = true →
send_error code (Some message) None (mkSession (mkHandler req unread [] []) w) =
(inr tt,
mkSession
 (mkHandler req unread [] (error_response (command req) (clock w) code message))
 w).
Proof.
intros Hversion%String.eqb_neq Hpage.
unfold error_response, send_error. cbv zeta. rewrite Hpage.
erewrite bind_run by by apply send_response_run.
erewrite bind_run by by apply send_header_run.
erewrite bind_run; cycle 1.
{ erewrite bind_run by by apply send_header_run. by apply send_header_run. }
erewrite bind_run by by apply end_headers_run.
erewrite bind_run by apply self_run. cbv beta. cbn [request default from_option id app].
destruct (negb (String.eqb (command req) "HEAD") && _); reflexivity.
Qed.

Lemma do_POST_save_embed (body : list byte) (w : World) :
rstrip_with is_slash (path req) = "/save-embed" →
serve do_POST req body w = save_embed (request_version req) (headers req) body w.
Proof.
intros Hpath. unfold serve, do_POST, save_embed.
erewrite bind_run by apply self_run. cbv beta. cbn [request].
rewrite Hpath. cbn [String.eqb Ascii.eqb Bool.eqb]. unfold try_except.
unfold bind at 1. unfold lift at 1.
destruct (py_int_str (header_get "Content-Length" "0" (headers req)))
as [e|n].
- by rewrite send_json_run.
- erewrite bind_run; cycle 1.
{ instantiate (1 := mkSession
      (mkHandler req (if 0 <? n then drop (Z.to_nat n) body else body) [] []) w).
  instantiate (1 := if 0 <? n then take (Z.to_nat n) body else []).
  by destruct (0 <? n). }
cbv beta. unfold bind at 1. unfold in_world at 1. cbn [world handler].
destruct (write_bytes out_path (if 0 <? n then take (Z.to_nat n) body else []) w)
  as [[e|[]] w']; by rewrite send_json_run.
Qed.
End HandlerSteps.

(** *** Rules for [triple] *)

Section Triples.
Import Http NoCacheRequestHandler.
Context {platform : Platform}.

Lemma triple_ret {A} (P : Session → Prop) (a : A) (Q : A → Session → Prop)
(R : Session → Prop) :
(∀ s, P s → Q a s) → triple P (ret a) Q R.
Proof. intros HPQ s Hs. by apply HPQ. Qed.







Lemma handler_only_responded : handler_only responded.
Proof. by intros h w w'. Qed.






Lemma triple_keep_responded (R : Session → Prop) :
triple responded (ret ()) (λ _, responded) R.
Proof. by apply triple_ret. Qed.
End Triples.

Section MethodTriples.
Import Http NoCacheRequestHandler.
Context {platform : Platform}.










End MethodTriples.

Section Answers.
Import Http NoCacheRequestHandler.
Context {platform : Platform}.



End Answers.



Section SaveEndpoint.
Import Http NoCacheRequestHandler.
Context {platform : Platform}.


Lemma json_response_body (version : string) (t code : Z) (payload : list byte) :
sent_body (json_response version t code payload) = payload.
Proof.
unfold json_response, sent_body.
destruct (String.eqb version "HTTP/0.9"); csimpl; by rewrite app_nil_r.
Qed.


(** C8: a POST to [/save-embed/] is answered exactly as the same POST to
[/save-embed], whatever the request's headers, the bytes that follow
them and the state of the world: same outcome, same response, same
files written. *)
Theorem trailing_slash_same_behaviour (cmd version : string)
(hs : list (string * string)) (body : list byte) (w : World) :
serve do_POST (mkRequest cmd "/save-embed/" version hs) body w =
serve do_POST (mkRequest cmd "/save-embed" version hs) body w.
Proof. by rewrite !do_POST_save_embed. Qed.

End SaveEndpoint.


Section StaticFiles.
Import Http NoCacheRequestHandler.
Context {platform : Platform}.

Lemma open_r_run (path : string) (data : list byte) (w : World) :
next_call_succeeds w → files w !! path = Some data →
open_r path w = (inr data, set_faults (tail (faults w)) w).
Proof.
intros Hcall Hfile. unfold open_r, next_call_succeeds in *.
destruct (faults w) as [|[msg|] rest]; [|done|]; by rewrite Hfile.
Qed.

(** [do_GET] for a path that names an existing file. *)
Lemma do_GET_file (get : Request) (w : World) (local : string)
(data : list byte) :
translate_path (path get) = local →
isdir local w = false → ends_with_slash local = false →
files w !! local = Some data → next_call_succeeds w →
request_version get ≠ "HTTP/0.9" →
has_header "If-Modified-Since" (headers get) = false →
serve do_GET get [] w =
(inr tt, file_response (clock w) local data, set_faults (tail (faults w)) w).
Proof.
intros Hlocal Hdir Hslash Hfile Hcall Hversion%String.eqb_neq Hims.
unfold serve, do_GET, send_head.
erewrite bind_run; cycle 1.
{ erewrite bind_run by apply self_run. cbv beta. cbn [request].
rewrite Hlocal. unfold bind at 1. unfold in_world at 1. cbn [world handler].
rewrite Hdir. unfold send_file_head. rewrite Hslash. unfold try_except.
unfold bind at 1. unfold in_world at 1. cbn [world handler].
rewrite (open_r_run local data w Hcall Hfile).
erewrite bind_run by apply self_run. cbv beta. cbn [request].
rewrite Hims. cbn [andb].
erewrite bind_run by by apply send_response_run.
do 3 (erewrite bind_run by by apply send_header_run).
erewrite bind_run by by apply end_headers_run.
reflexivity. }
reflexivity.
Qed.
End StaticFiles.

Lemma ends_with_app (c : ascii) (s t : string) :
  t ≠ "" → ends_with c (s +:+ t) = ends_with c t.
Proof.
  intros Ht. induction s as [|d s IH]; [done|].
  rewrite string_app_cons. cbn [ends_with]. rewrite IH.
  destruct (s +:+ t) eqn:Hst; [|done].
  destruct s; [by rewrite string_app_nil_l in Hst|done].
Qed.

Lemma rstrip_with_app_keep (p : ascii → bool) (s t : string) :
  t ≠ "" → rstrip_with p t = t → rstrip_with p (s +:+ t) = s +:+ t.
Proof.
  intros Ht Hkeep. induction s as [|d s IH]; [done|].
  rewrite string_app_cons. cbn [rstrip_with]. rewrite IH.
  destruct (s +:+ t) eqn:Hst; [|done].
  destruct s; [by rewrite string_app_nil_l in Hst|done].
Qed.

Section SavedFile.
Import Http NoCacheRequestHandler.
Context {platform : Platform}.


Lemma translate_path_saved_file :
translate_path "/superdynamic%20-%20embed.html" = out_path.
Proof. reflexivity. Qed.


End SavedFile.


Section ContentLength.
Import Http NoCacheRequestHandler.
Context {platform : Platform}.


End ContentLength.


(** The three cases of C10 on concrete requests: five of eleven bytes are
    kept, a request without the header writes an empty file, and a header
    that is no number is answered by 500 and leaves the files alone. *)
Lemma save_embed_examples :
  files (NoCacheRequestHandler.serve
           (NoCacheRequestHandler.do_POST (platform := sample_platform))
           save_request (encode_utf8 "hello world") sample_world).2
    = {[ "/srv/election/superdynamic - embed.html" := encode_utf8 "hello" ]} ∧
  files (NoCacheRequestHandler.serve
           (NoCacheRequestHandler.do_POST (platform := sample_platform))
           lengthless_request (encode_utf8 "hello world") sample_world).2
    = {[ "/srv/election/superdynamic - embed.html" := [] ]} ∧
  sent_status
    (NoCacheRequestHandler.serve
       (NoCacheRequestHandler.do_POST (platform := sample_platform))
       garbled_request (encode_utf8 "hello world") sample_world).1.2
    = Some 500 ∧
  files (NoCacheRequestHandler.serve
           (NoCacheRequestHandler.do_POST (platform := sample_platform))
           garbled_request (encode_utf8 "hello world") sample_world).2
    = ∅.
Proof. by vm_compute. Qed.

(** After the save, the file is served as it was posted. *)
Lemma saved_file_is_fetched :
  sent_body
    (NoCacheRequestHandler.serve
       (NoCacheRequestHandler.do_GET (platform := sample_platform))
       fetch_request []
       (NoCacheRequestHandler.serve
          (NoCacheRequestHandler.do_POST (platform := sample_platform))
          save_request (encode_utf8 "hello") sample_world).2).1.2
  = encode_utf8 "hello".
Proof. by vm_compute. Qed.

(** * Further properties of the code *)

(** ** The generated snapshot, column by column *)

Lemma fill_year_dom (p : Party) (row : Row) (y : string) (g : Random) :
  dom (fill_year p row y g).1 = {[leads_key y; seats_key y]} ∪ dom row.
Proof.
  unfold fill_year, sbind, sret.
  destruct (randint (-5) 5 g) as [delta g1].
  destruct (randint 0 5 g1) as [leads g2]. simpl.
  rewrite !dom_insert_L. set_solver.
Qed.

Lemma fill_years_dom (ys : list string) (p : Party) (row : Row) (g : Random) :
  dom (fill_years p row ys g).1 =
  list_to_set (y ← ys; [seats_key y; leads_key y]) ∪ dom row.
Proof.
  revert row g. induction ys as [|y ys IH]; intros row g.
  - simpl. set_solver.
  - cbn [fill_years]. unfold sbind.
    pose proof (fill_year_dom p row y g) as Hy.
    destruct (fill_year p row y g) as [row1 g1]. simpl in Hy.
    rewrite IH, Hy. csimpl. set_solver.
Qed.

Lemma party_row_dom (p : Party) (g : Random) :
  dom (party_row p g).1 = list_to_set headers.
Proof.
  unfold party_row. rewrite fill_years_dom, !dom_insert_L, dom_empty_L.
  rewrite headers_eq. unfold YEARS. csimpl.
  unfold seats_key, leads_key. simpl. set_solver.
Qed.

Lemma snapshot_rows_dom (ps : list Party) (rows : list Row) (g : Random) :
  ∃ news, (snapshot_rows ps rows g).1 = rows ++ news ∧
          length news = length ps ∧
          Forall (λ r, dom r = list_to_set headers) news.
Proof.
  revert rows g. induction ps as [|p ps IH]; intros rows g.
  - exists []. by rewrite app_nil_r.
  - simpl. unfold sbind.
    pose proof (party_row_dom p g) as Hrow.
    destruct (party_row p g) as [row g1]. simpl in Hrow.
    destruct (IH (rows ++ [row]) g1) as (news & -> & Hlen & Hnews).
    exists (row :: news). split; [by rewrite <- app_assoc|].
    split; [by rewrite length_cons, Hlen|by constructor].
Qed.

(** X1: whatever the random source delivers, a snapshot holds one row per
    configured party, in the order of [PARTIES], with the party's name and
    colour, and the keys of every row are exactly the columns of the
    tabular file: no column is ever missing from a generated row, and none
    is extra. *)
Theorem snapshot_rows_match_columns (g : Random) :
  Forall2 (λ p row,
             row !! "Party" = Some (PStr (name p)) ∧
             row !! "Color" = Some (PStr (color p)) ∧
             ∀ key, is_Some (row !! key) ↔ key ∈ headers)
    PARTIES (new_random_snapshot g).1.
Proof.
  pose proof (new_random_snapshot_rows g) as Hrows.
  destruct (snapshot_rows_dom PARTIES [] g) as (news & Heq & _ & Hdom).
  unfold new_random_snapshot in *. rewrite Heq in *.
  change ([] ++ news) with news in *.
  apply Forall2_same_length_lookup. split; [by eapply Forall2_length|].
  intros i p row Hp Hr.
  destruct (Forall2_lookup_lr _ _ _ _ _ _ Hrows Hp Hr) as (Hparty & Hcolor & _).
  split; [done|]. split; [done|]. intros key.
  rewrite <- elem_of_dom, (Forall_lookup_1 _ _ _ _ Hdom Hr).
  apply elem_of_list_to_set.
Qed.

(** X2: with the configured base counts the floor at zero is never reached:
    every seat count of a snapshot is the party's base plus a perturbation
    of at most five, hence strictly positive. *)
Theorem snapshot_seats_within_five_of_base (g : Random) :
  Forall2 (λ p row, ∀ y, y ∈ YEARS →
    ∃ seats : Z,
      row !! seats_key y = Some (PInt seats) ∧
      base p - 5 ≤ seats ≤ base p + 5 ∧ 0 < seats)
    PARTIES (new_random_snapshot g).1.
Proof.
  destruct (snapshot_rows_inv g) as (r1 & r2 & r3 & -> & H1 & H2 & H3).
  unfold PARTIES.
  repeat (apply Forall2_cons; split; [|]); [| | |apply Forall2_nil_2];
    intros y Hy;
    [destruct H1 as (_ & _ & Hys)|destruct H2 as (_ & _ & Hys)|
     destruct H3 as (_ & _ & Hys)];
    destruct (Hys y Hy) as (delta & leads & Hd & _ & Hseats & _);
    simpl in *; eexists; (split; [exact Hseats|lia]).
Qed.

(** ** What the writers leave alone *)

Lemma same_outside_refl (paths : gset string) (w : World) :
  same_outside paths w w.
Proof. done. Qed.

Lemma same_outside_trans (paths : gset string) (w1 w2 w3 : World) :
  same_outside paths w1 w2 → same_outside paths w2 w3 → same_outside paths w1 w3.
Proof.
  intros (Hf & ? & ? & ?) (Hf' & ? & ? & ?).
  split_and!; try congruence. intros p Hp. by rewrite Hf', Hf.
Qed.

Lemma same_outside_mono (paths paths' : gset string) (w w' : World) :
  paths ⊆ paths' → same_outside paths w w' → same_outside paths' w w'.
Proof.
  intros Hsub (Hf & ? & ? & ?). split_and!; try done.
  intros p Hp. apply Hf. set_solver.
Qed.

Lemma writes_only_ret {A} (paths : gset string) (a : A) :
  writes_only paths (ret a).
Proof. by intros w. Qed.

Lemma writes_only_lift {A} (paths : gset string) (r : pyexc + A) :
  writes_only paths (lift r).
Proof. by intros w. Qed.

Lemma writes_only_bind {A B} (paths : gset string) (m : IO A) (k : A → IO B) :
  writes_only paths m → (∀ a, writes_only paths (k a)) →
  writes_only paths (bind m k).
Proof.
  intros Hm Hk w. unfold bind. specialize (Hm w).
  destruct (m w) as [[e|a] w1]; [done|].
  by apply (same_outside_trans _ _ w1), Hk.
Qed.

Lemma writes_only_try {A} (paths : gset string) (m : IO A) (h : pyexc → IO A) :
  writes_only paths m → (∀ e, writes_only paths (h e)) →
  writes_only paths (try_except m h).
Proof.
  intros Hm Hh w. unfold try_except. specialize (Hm w).
  destruct (m w) as [[e|a] w1]; [|done].
  by apply (same_outside_trans _ _ w1), Hh.
Qed.

Lemma writes_only_open_w (paths : gset string) (path : string) :
  path ∈ paths → writes_only paths (open_w path).
Proof.
  intros Hpath w. unfold open_w.
  destruct (faults w) as [|[msg|] rest]; try case_decide; try done;
    (split_and!; [|done..]); intros p Hp; simpl;
    apply lookup_insert_ne; set_solver.
Qed.

Lemma writes_only_file_write (paths : gset string) (path : string)
    (data : list byte) :
  path ∈ paths → writes_only paths (file_write path data).
Proof.
  intros Hpath w. split_and!; [|done..]. intros p Hp. simpl.
  apply lookup_insert_ne. set_solver.
Qed.

Lemma writes_only_write_bytes (paths : gset string) (path : string)
    (data : list byte) :
  path ∈ paths → writes_only paths (write_bytes path data).
Proof.
  intros Hpath. apply writes_only_bind; [by apply writes_only_open_w|].
  intros _. by apply writes_only_file_write.
Qed.

Lemma open_w_run (path : string) (w : World) :
  next_call_succeeds w → path ∉ dirs w →
  open_w path w =
  (inr tt, set_files (<[path := []]> (files w)) (set_faults (tail (faults w)) w)).
Proof.
  intros Hcall Hdir. unfold open_w, next_call_succeeds in *.
  destruct (faults w) as [|[msg|] rest]; [|done|]; by rewrite decide_False.
Qed.

Section WriterEdges.
Context {platform : Platform}.

Lemma writes_only_write_rows (paths : gset string) (hs : list string)
  (rows : list Row) :
CSV_PATH ∈ paths → writes_only paths (write_rows hs rows).
Proof.
intros Hpath. induction rows as [|r rows IH]; [apply writes_only_ret|].
cbn [write_rows]. apply writes_only_bind; [apply writes_only_lift|].
intros line. apply writes_only_bind; [by apply writes_only_file_write|].
by intros _.
Qed.

Lemma writes_only_write_csv_and_json (rows : list Row) :
writes_only {[CSV_PATH; JSON_PATH]} (write_csv_and_json rows).
Proof.
unfold write_csv_and_json, write_csv, write_text.
repeat (apply writes_only_bind; [|intros ?]);
  try apply writes_only_lift;
  try (apply writes_only_open_w; set_solver);
  try (apply writes_only_file_write; set_solver);
  try (apply writes_only_write_rows; set_solver);
  apply writes_only_write_bytes; set_solver.
Qed.

(** X3: whatever the rows and whether it succeeds or raises,
  [write_csv_and_json] changes no file other than the two data files,
  creates or removes no directory, prints nothing and leaves the clock
  alone. *)
Theorem write_csv_and_json_touches_two_files_only (rows : list Row) (w : World) :
(∀ p, p ≠ CSV_PATH → p ≠ JSON_PATH →
      files (write_csv_and_json rows w).2 !! p = files w !! p) ∧
dirs (write_csv_and_json rows w).2 = dirs w ∧
stdout (write_csv_and_json rows w).2 = stdout w ∧
stderr (write_csv_and_json rows w).2 = stderr w ∧
clock (write_csv_and_json rows w).2 = clock w.
Proof.
destruct (writes_only_write_csv_and_json rows w) as (Hfiles & ? & ? & ?).
destruct (keeps_schedule_write_csv_and_json rows w) as (? & _).
split_and!; try done. intros p Hcsv Hjson. apply Hfiles. set_solver.
Qed.

Lemma write_csv_ok (hs : list string) (rows : list Row) (w : World) :
next_call_succeeds w → CSV_PATH ∉ dirs w →
write_csv hs rows w =
  (inr tt,
   set_files (<[CSV_PATH := encode_utf8 (csv_text hs rows)]> (files w))
     (set_faults (tail (faults w)) w)).
Proof.
intros Hcall Hdir. apply write_csv_run. unfold write_csv.
erewrite bind_run by by apply open_w_run.
unfold bind at 1. unfold lift. rewrite writeheader_record.
unfold bind at 1. unfold file_write at 1. cbn [files set_files].
rewrite lookup_insert_eq.
by erewrite write_rows_run by apply lookup_insert_eq.
Qed.

(** X4: when the tabular file cannot be opened, the [OSError] leaves
  [write_csv_and_json] at once: neither data file is touched, and the
  structured file is not even attempted (one file-system call has been
  made). *)
Theorem refused_tabular_file_changes_nothing (rows : list Row) (w : World)
  (msg : string) (rest : list (option string)) :
faults w = Some msg :: rest →
write_csv_and_json rows w = (inl (OSError msg), set_faults rest w).
Proof.
intros Hfaults. unfold write_csv_and_json, write_csv, bind, open_w.
by rewrite Hfaults.
Qed.

(** X5: the two files are written one after the other, not as a pair: when the
  tabular file has been written and the structured file then cannot be
  opened, the [OSError] leaves [write_csv_and_json] with the tabular file
  holding the new rows and the structured file holding whatever it held
  before. *)
Theorem refused_structured_file_leaves_files_out_of_step (rows : list Row)
  (w : World) (msg : string) (rest : list (option string)) (data : Json.value) :
faults w = None :: Some msg :: rest → CSV_PATH ∉ dirs w →
json_data rows = inr data →
(write_csv_and_json rows w).1 = inl (OSError msg) ∧
files (write_csv_and_json rows w).2 =
  <[CSV_PATH := encode_utf8 (csv_text headers rows)]> (files w) ∧
files (write_csv_and_json rows w).2 !! JSON_PATH = files w !! JSON_PATH.
Proof.
intros Hfaults Hdir Hdata. unfold write_csv_and_json.
erewrite bind_run; cycle 1.
{ apply write_csv_ok; [|done]. unfold next_call_succeeds. by rewrite Hfaults. }
unfold bind at 1. unfold lift. rewrite Hdata.
unfold write_text, write_bytes, bind, open_w. cbn [faults set_faults set_files].
rewrite Hfaults. cbn [tail fst snd files set_faults set_files].
split; [done|]. split; [done|].
apply lookup_insert_ne, csv_path_ne_json_path.
Qed.


(** X7: each successful call replaces both files: after two calls in a row the
  files hold the rows of the second call only, as if the first had never
  taken place. *)
Theorem second_write_replaces_first (rows1 rows2 : list Row) (w : World) :
(write_csv_and_json rows1 w).1 = inr tt →
(write_csv_and_json rows2 (write_csv_and_json rows1 w).2).1 = inr tt →
∃ data,
  json_data rows2 = inr data ∧
  files (write_csv_and_json rows2 (write_csv_and_json rows1 w).2).2 =
    <[JSON_PATH := encode_utf8 (Json.dumps Json.pretty data)]>
      (<[CSV_PATH := encode_utf8 (csv_text headers rows2)]> (files w)).
Proof.
intros Hfirst Hsecond.
destruct (write_csv_and_json_run rows1 w Hfirst) as (data1 & _ & Hfiles1).
destruct (write_csv_and_json_run rows2 _ Hsecond) as (data2 & Hdata2 & Hfiles2).
exists data2. split; [done|]. rewrite Hfiles2, Hfiles1.
pose proof csv_path_ne_json_path as Hne.
apply map_eq. intros p.
destruct (decide (p = JSON_PATH)) as [->|Hjson]; [by rewrite !lookup_insert_eq|].
rewrite (lookup_insert_ne _ JSON_PATH), (lookup_insert_ne _ JSON_PATH) by done.
destruct (decide (p = CSV_PATH)) as [->|Hcsv]; [by rewrite !lookup_insert_eq|].
by rewrite !lookup_insert_ne by done.
Qed.
End WriterEdges.

(** ** Quoted fields read back *)

Lemma run_in_quoted (f rest cur : string) (rec : list string) :
  Csv.run Csv.InQuoted cur rec (Csv.escape f +:+ rest) =
  Csv.run Csv.InQuoted (cur +:+ f) rec rest.
Proof.
  revert cur. induction f as [|c f IH]; intros cur.
  - by rewrite string_app_nil_l, string_app_nil_r.
  - cbn [Csv.escape]. destruct (c =? dquote)%char eqn:Hc.
    + apply Ascii.eqb_eq in Hc as ->.
      rewrite !string_app_cons.
      change (Csv.run Csv.InQuoted cur rec
                (String dquote (String dquote (Csv.escape f +:+ rest))))
        with (Csv.run Csv.InQuoted (cur +:+ str1 dquote) rec
                (Csv.escape f +:+ rest)).
      rewrite IH. by rewrite string_app_assoc.
    + rewrite string_app_cons. simpl. rewrite Hc, IH.
      by rewrite string_app_assoc.
Qed.

(** A quoted field, up to and including its closing quote. *)
Lemma run_quoted (st : Csv.rstate) (f rest : string) (rec : list string) :
  st = Csv.StartRecord ∨ st = Csv.StartField →
  Csv.run st "" rec (str1 dquote +:+ Csv.escape f +:+ str1 dquote +:+ rest) =
  Csv.run Csv.QuoteInQuoted f rec rest.
Proof.
  intros Hst. unfold str1. rewrite !string_app_cons, !string_app_nil_l.
  assert (Csv.run st "" rec (String dquote (Csv.escape f +:+ String dquote rest))
          = Csv.run Csv.InQuoted "" rec (Csv.escape f +:+ String dquote rest))
    as -> by (by destruct Hst as [-> | ->]).
  by rewrite run_in_quoted.
Qed.

Lemma run_any_field_comma (st : Csv.rstate) (f rest : string) (rec : list string) :
  st = Csv.StartRecord ∨ st = Csv.StartField →
  Csv.run st "" rec (Csv.field f +:+ "," +:+ rest) =
  Csv.run Csv.StartField "" (rec ++ [f]) rest.
Proof.
  intros Hst. unfold Csv.field. destruct (Csv.has_special f) eqn:Hf.
  - rewrite !string_app_assoc. by rewrite run_quoted.
  - by apply run_field_comma.
Qed.

Lemma run_any_field_eol (st : Csv.rstate) (f rest : string) (rec : list string) :
  st = Csv.StartField ∨ (st = Csv.StartRecord ∧ f ≠ "") →
  Csv.run st "" rec (Csv.field f +:+ Csv.lineterminator +:+ rest) =
  (rec ++ [f]) :: Csv.run Csv.StartRecord "" [] rest.
Proof.
  intros Hst. unfold Csv.field. destruct (Csv.has_special f) eqn:Hf.
  - rewrite !string_app_assoc. rewrite run_quoted; [done|].
    destruct Hst as [-> | [-> _]]; auto.
  - by apply run_field_eol.
Qed.

Lemma run_any_fields (fields : list string) (st : Csv.rstate) (rec : list string)
    (rest : string) :
  fields ≠ [] →
  st = Csv.StartField ∨ (st = Csv.StartRecord ∧ fields ≠ [""]) →
  Csv.run st "" rec
    (String.concat "," (Csv.field <$> fields) +:+ Csv.lineterminator +:+ rest) =
  (rec ++ fields) :: Csv.run Csv.StartRecord "" [] rest.
Proof.
  revert st rec. induction fields as [|f fields IH]; intros st rec Hne Hst;
    [done|].
  destruct fields as [|g fields].
  - simpl. apply run_any_field_eol.
    destruct Hst as [-> | [-> Hf']]; [by left|]. right. split; [done|].
    intros ->. done.
  - rewrite !fmap_cons.
    change (String.concat "," (Csv.field f :: Csv.field g :: (Csv.field <$> fields)))
      with (Csv.field f +:+ "," +:+
            String.concat "," (Csv.field <$> (g :: fields))).
    rewrite !string_app_assoc. rewrite run_any_field_comma.
    + rewrite IH; [|done|by left]. by rewrite <- app_assoc.
    + destruct Hst as [-> | [-> _]]; auto.
Qed.

Lemma run_any_record (fields : list string) (rest : string) :
  Csv.run Csv.StartRecord "" [] (Csv.record fields +:+ rest) =
  fields :: Csv.run Csv.StartRecord "" [] rest.
Proof.
  destruct (decide (fields = [])) as [->|Hne]; [done|].
  destruct (decide (fields = [""])) as [->|Hne']; [done|].
  assert (Csv.record fields =
          String.concat "," (Csv.field <$> fields) +:+ Csv.lineterminator) as ->.
  { destruct fields as [|[|] [|]]; done. }
  rewrite string_app_assoc. by rewrite run_any_fields; [| |right].
Qed.

(** The reader undoes the writer, whatever the fields hold: commas, quote
    characters and line breaks inside a field come back as written, and so
    do empty fields and empty records. *)
Lemma reader_any_records (records : list (list string)) :
  Csv.reader (String.concat "" (Csv.record <$> records)) = records.
Proof.
  unfold Csv.reader. induction records as [|fields records IH]; [done|].
  by rewrite fmap_cons, string_concat_empty_cons, run_any_record, IH.
Qed.

(** ** Both files read back, whatever the rows hold *)

Section FilesReadBack.
Context {platform : Platform}.

Lemma write_csv_and_json_paths (rows : list Row) (w : World) :
(write_csv_and_json rows w).1 = inr tt →
(CSV_PATH ∉ dirs w) ∧ (JSON_PATH ∉ dirs w).
Proof.
intros Hok. unfold write_csv_and_json in Hok.
destruct (bind_inr _ _ _ _ Hok) as ([] & Hcsv & Hrun).
apply write_csv_run in Hcsv as [Hdir Hcsv]. split; [done|].
rewrite Hrun, Hcsv in Hok. cbn [snd] in Hok.
unfold bind at 1 in Hok. unfold lift in Hok.
destruct (json_data rows) as [e|data]; [done|].
unfold write_text, write_bytes in Hok.
destruct (bind_inr _ _ _ _ Hok) as ([] & Hopen & _).
by apply open_w_inr in Hopen as [? _].
Qed.

(** X8: after a successful call, for any rows at all (party names with commas,
  quote characters or line breaks included), a csv reader gets back from
  the tabular file exactly the header and, row by row, the text of every
  column, a missing column reading as the empty text. *)
Theorem tabular_file_reads_back (rows : list Row) (w : World) :
(write_csv_and_json rows w).1 = inr tt →
Csv.reader <$> read_text CSV_PATH (write_csv_and_json rows w).2 =
Some (headers :: (row_fields headers <$> rows)).
Proof.
intros Hok.
destruct (write_csv_and_json_run rows w Hok) as (data & _ & Hfiles).
unfold read_text. rewrite Hfiles.
rewrite lookup_insert_ne by apply not_eq_sym, csv_path_ne_json_path.
rewrite lookup_insert_eq. cbn [fmap option_fmap option_map].
rewrite decode_encode_utf8. unfold csv_text.
rewrite <- string_concat_empty_cons, <- !fmap_cons.
by rewrite reader_any_records.
Qed.

End FilesReadBack.

(** ** What the updater prints *)

Section UpdaterLines.
Context {platform : Platform}.






(** X12: the initial cycle does not look at the stop event: when the event is
  set before the updater starts, one generation is still attempted, and
  if it succeeds the updater then returns at its first wait without a
  further cycle. *)
Theorem stopped_updater_still_generates_once (fuel : nat) (interval : Z)
  (w : World) (ts : Z) :
stop_at w = Some ts → ts ≤ clock w →
seeded (run_updater (S fuel) interval w).2 = seeded w ++ [clock w] ∧
((run_updater (S fuel) interval w).1 = inr Finished ∨
 ∃ e, (generate "Data initialized" w).1 = inl e ∧
      (run_updater (S fuel) interval w).1 = inl e).
Proof.
intros Hstop Hts. unfold run_updater, bind.
pose proof (generate_schedule "Data initialized" w)
  as (Hclock & Hstop1 & _ & Hseeded).
destruct (generate "Data initialized" w) as [[e|[]] w1];
  cbn [fst snd] in *.
- split; [done|]. right. by exists e.
- rewrite (updater_loop_set fuel interval ts w1) by (congruence || lia).
  split; [done|]. by left.
Qed.
End UpdaterLines.

(** ** What requests do to the world *)

Section WorldInvariant.
Import Http NoCacheRequestHandler.
Context {platform : Platform}.
Context (I : World → Prop).
Hypothesis Hfaults : ∀ w l, I w → I (set_faults l w).


















End WorldInvariant.

Lemma rstrip_with_all (p : ascii → bool) (t : string) :
  string_forall p t = true → rstrip_with p t = "".
Proof.
  induction t as [|c t IH]; [done|]. simpl.
  intros [Hc Ht]%andb_true_iff. by rewrite (IH Ht), Hc.
Qed.

Lemma rstrip_with_app_all (p : ascii → bool) (s t : string) :
  string_forall p t = true → rstrip_with p (s +:+ t) = rstrip_with p s.
Proof.
  intros Ht. induction s as [|c s IH].
  - by rewrite string_app_nil_l, rstrip_with_all.
  - rewrite string_app_cons. cbn [rstrip_with]. by rewrite IH.
Qed.



Section HandlerEdges.
Import Http NoCacheRequestHandler.
Context {platform : Platform}.





Lemma json_response_length (version : string) (t code : Z)
  (payload : list byte) :
version ≠ "HTTP/0.9" →
sent_header "Content-Length"
  (py_str_int (Z.of_nat (length (sent_body (json_response version t code payload)))))
  (json_response version t code payload).
Proof.
intros Hversion. rewrite json_response_body.
apply String.eqb_neq in Hversion.
unfold json_response, sent_header, sent_lines. rewrite Hversion. csimpl.
unfold content_length. set_solver.
Qed.

(** X16: the [Content-Length] header of every answer of [do_POST] (200, 500
  and 404 alike) announces exactly the number of body bytes that
  follow. *)
Theorem post_answers_announce_their_length (req : Request) (body : list byte)
  (w : World) :
request_version req ≠ "HTTP/0.9" → command req ≠ "HEAD" →
∃ out w',
  serve do_POST req body w = (inr tt, out, w') ∧
  sent_header "Content-Length"
    (py_str_int (Z.of_nat (length (sent_body out)))) out.
Proof.
intros Hversion Hcommand.
destruct (decide (rstrip_with is_slash (path req) = "/save-embed"))
  as [Hpath|Hpath].
- rewrite (do_POST_save_embed req body w Hpath). unfold save_embed.
  destruct (py_int_str _) as [e|n].
  { eexists _, _. split; [reflexivity|]. by apply json_response_length. }
  destruct (write_bytes _ _ w) as [[e|[]] w'];
    (eexists _, _; split; [reflexivity|]; by apply json_response_length).
- apply String.eqb_neq in Hpath, Hcommand.
  unfold serve, do_POST. erewrite bind_run by apply self_run.
  cbv beta. cbn [request]. rewrite Hpath.
  rewrite send_error_run by done. eexists _, _. split; [reflexivity|].
  unfold error_response. cbv zeta. rewrite Hcommand. cbn [negb andb].
  generalize (error_page 404 "Not Found" (from_option snd "???" (responses 404))).
  intros page. unfold sent_header, sent_lines, sent_body, content_length.
  case_bool_decide as Hpage; csimpl.
  + rewrite Hpage. set_solver.
  + rewrite !app_nil_r. set_solver.
Qed.

(** X17: [rstrip("/")] removes every trailing slash: a POST to the save path
  followed by any number of slashes is answered exactly as a POST to the
  save path itself. *)
Theorem any_trailing_slashes_same_behaviour (cmd version slashes : string)
  (hs : list (string * string)) (body : list byte) (w : World) :
string_forall is_slash slashes = true →
serve do_POST (mkRequest cmd ("/save-embed" +:+ slashes) version hs) body w =
serve do_POST (mkRequest cmd "/save-embed" version hs) body w.
Proof.
intros Hslashes. rewrite !do_POST_save_embed; [done|done|].
cbn [path]. by rewrite rstrip_with_app_all.
Qed.


End HandlerEdges.

(** ** The data files, as the server hands them out *)

Section ServedData.
Import NoCacheRequestHandler.
Context {platform : Platform}.

Lemma data_paths_are_file_names :
(rstrip_with is_slash CSV_PATH = CSV_PATH ∧ ends_with_slash CSV_PATH = false) ∧
(rstrip_with is_slash JSON_PATH = JSON_PATH ∧ ends_with_slash JSON_PATH = false).
Proof.
unfold CSV_PATH, JSON_PATH, path_join, ends_with_slash.
destruct (ends_with "/" ROOT);
  by rewrite !rstrip_with_app_keep, !ends_with_app.
Qed.

Lemma file_response_seen (t : Z) (local : string) (data : list byte) :
sent_status (file_response t local data) = Some 200 ∧
sent_body (file_response t local data) = data.
Proof.
split; [reflexivity|]. unfold file_response, sent_body. csimpl.
apply app_nil_r.
Qed.

Lemma translate_path_data_files :
translate_path "/data.csv" = CSV_PATH ∧ translate_path "/data.json" = JSON_PATH.
Proof. split; reflexivity. Qed.

(** X20: the updater and the handler meet in the two files: once
  [write_csv_and_json] has succeeded, a GET of [/data.csv] is answered
  by 200 and exactly the tabular text of the rows, and a GET of
  [/data.json] by 200 and exactly their structured text (as long as the
  operating system lets the file be opened). *)
Theorem data_files_are_served_as_written (rows : list Row) (w : World)
  (get : Http.Request) :
(write_csv_and_json rows w).1 = inr tt →
next_call_succeeds (write_csv_and_json rows w).2 →
Http.request_version get ≠ "HTTP/0.9" →
Http.has_header "If-Modified-Since" (Http.headers get) = false →
∃ data,
  json_data rows = inr data ∧
  (Http.path get = "/data.csv" →
   ∃ out w',
     serve do_GET get [] (write_csv_and_json rows w).2 = (inr tt, out, w') ∧
     sent_status out = Some 200 ∧
     sent_body out = encode_utf8 (csv_text headers rows)) ∧
  (Http.path get = "/data.json" →
   ∃ out w',
     serve do_GET get [] (write_csv_and_json rows w).2 = (inr tt, out, w') ∧
     sent_status out = Some 200 ∧
     sent_body out = encode_utf8 (Json.dumps Json.pretty data)).
Proof.
intros Hok Hcall Hversion Hims.
destruct (write_csv_and_json_run rows w Hok) as (data & Hdata & Hfiles).
destruct (write_csv_and_json_paths rows w Hok) as [Hcsv Hjson].
destruct (writes_only_write_csv_and_json rows w) as (_ & Hdirs & _).
destruct data_paths_are_file_names as [[Hc1 Hc2] [Hj1 Hj2]].
destruct translate_path_data_files as [Htc Htj].
pose proof csv_path_ne_json_path as Hne.
exists data. split; [done|]. split; intros Hpath.
- eexists _, _. split.
  + apply (do_GET_file get _ CSV_PATH (encode_utf8 (csv_text headers rows)));
      try done.
    * by rewrite Hpath.
    * unfold isdir. rewrite Hc1, Hdirs. by apply bool_decide_eq_false_2.
    * rewrite Hfiles, lookup_insert_ne by done. apply lookup_insert_eq.
  + apply file_response_seen.
- eexists _, _. split.
  + apply (do_GET_file get _ JSON_PATH
             (encode_utf8 (Json.dumps Json.pretty data))); try done.
    * by rewrite Hpath.
    * unfold isdir. rewrite Hj1, Hdirs. by apply bool_decide_eq_false_2.
    * rewrite Hfiles. apply lookup_insert_eq.
  + apply file_response_seen.
Qed.
End ServedData.

(** ** Where a request path can lead *)

Lemma string_forall_app (p : ascii → bool) (s t : string) :
  string_forall p (s +:+ t) = string_forall p s && string_forall p t.
Proof.
  induction s as [|c s IH]; [done|].
  rewrite string_app_cons. simpl. by rewrite IH, andb_assoc.
Qed.

Lemma split_on_pieces (c : ascii) (cur s : string) :
  string_forall (λ d, negb (d =? c)%char) cur = true →
  Forall (λ piece, string_forall (λ d, negb (d =? c)%char) piece = true)
    (split_on c cur s).
Proof.
  revert cur. induction s as [|d s IH]; intros cur Hcur.
  - by apply Forall_singleton.
  - cbn [split_on]. destruct (d =? c)%char eqn:Hd.
    + apply Forall_cons. split; [done|]. by apply IH.
    + apply IH. rewrite string_forall_app, Hcur. simpl. by rewrite Hd.
Qed.

Lemma norm_components_kept (P : string → Prop) (absolute : bool)
    (comps kept : list string) :
  Forall (λ word, P word ∧ word ≠ "" ∧ word ≠ ".") kept →
  Forall P comps →
  Forall (λ word, P word ∧ word ≠ "" ∧ word ≠ ".")
    (norm_components absolute kept comps).
Proof.
  revert kept. induction comps as [|comp comps IH]; intros kept Hkept Hcomps;
    [done|].
  apply Forall_cons in Hcomps as [Hcomp Hcomps]. cbn [norm_components].
  case_bool_decide as Hskip; [by apply IH|].
  case_bool_decide.
  - apply IH; [|done]. apply Forall_cons. split; [|done].
    split; [done|]. split; intros ->; apply Hskip; auto.
  - apply IH; [|done]. destruct kept as [|k kept]; [done|].
    by apply Forall_cons in Hkept as [_ ?].
Qed.

Section LocalPaths.
Import Http NoCacheRequestHandler.
Context {platform : Platform}.

(** X21: whatever the request path (with [..] components, escaped or not, with
  doubled slashes, a query string or a fragment), the local path it is
  translated to is [ROOT] followed by components none of which is empty,
  [.] or [..] or contains a slash, plus at most a closing slash: no
  request path leads above the served directory. *)
Theorem translate_path_stays_below_root (url : string) :
∃ words,
  Forall (λ word, word ≠ "" ∧ word ≠ "." ∧ word ≠ ".." ∧
                  string_forall (λ c, negb (is_slash c)) word = true) words ∧
  (translate_path url = foldl path_join ROOT words ∨
   translate_path url = foldl path_join ROOT words +:+ "/").
Proof.
unfold translate_path. cbv zeta.
set (p := unquote (cut_at "#" (cut_at "?" url))).
set (absolute := match p with String "/" _ => true | _ => false end).
set (words := filter (λ word, word ≠ "." ∧ word ≠ "..")
                (reverse (norm_components absolute [] (split_on "/" "" p)))).
exists words. split; [|destruct (ends_with_slash _); auto].
pose proof (norm_components_kept
              (λ word, string_forall (λ c, negb (is_slash c)) word = true)
              absolute (split_on "/" "" p) [] (Forall_nil_2 _)
              (split_on_pieces "/" "" p eq_refl)) as Hkept.
apply Forall_forall. intros word Hword.
apply list_elem_of_filter in Hword as [[? ?] Hword].
rewrite elem_of_reverse in Hword.
rewrite Forall_forall in Hkept.
destruct (Hkept word Hword) as (? & ? & ?). done.
Qed.
End LocalPaths.

(** ** The statements above, on concrete inputs *)

Lemma refused_tabular_file_changes_nothing_witness :
  write_csv_and_json (platform := sample_platform) sample_rows refusing_world =
  (inl (OSError "[Errno 13] Permission denied"), set_faults [] refusing_world).
Proof.
  apply (refused_tabular_file_changes_nothing (platform := sample_platform)
           sample_rows refusing_world).
  reflexivity.
Defined.

Lemma refused_structured_file_leaves_files_out_of_step_witness :
  (write_csv_and_json (platform := sample_platform) sample_rows
     half_refusing_world).1 = inl (OSError "[Errno 13] Permission denied") ∧
  files (write_csv_and_json (platform := sample_platform) sample_rows
           half_refusing_world).2 =
    <[CSV_PATH (platform := sample_platform)
        := encode_utf8 (csv_text headers sample_rows)]>
      (files half_refusing_world) ∧
  files (write_csv_and_json (platform := sample_platform) sample_rows
           half_refusing_world).2 !! JSON_PATH (platform := sample_platform) =
    files half_refusing_world !! JSON_PATH (platform := sample_platform).
Proof.
  eapply (refused_structured_file_leaves_files_out_of_step
            (platform := sample_platform) sample_rows half_refusing_world).
  - reflexivity.
  - apply not_elem_of_empty.
  - vm_compute. reflexivity.
Defined.


Lemma second_write_replaces_first_witness :
  ∃ data,
    json_data (platform := sample_platform) later_rows = inr data ∧
    files (write_csv_and_json (platform := sample_platform) later_rows
             (write_csv_and_json (platform := sample_platform) sample_rows
                sample_world).2).2 =
      <[JSON_PATH (platform := sample_platform)
          := encode_utf8 (Json.dumps Json.pretty data)]>
        (<[CSV_PATH (platform := sample_platform)
             := encode_utf8 (csv_text headers later_rows)]> (files sample_world)).
Proof.
  apply (second_write_replaces_first (platform := sample_platform)
           sample_rows later_rows sample_world).
  - vm_compute. reflexivity.
  - vm_compute. reflexivity.
Defined.

Lemma tabular_file_reads_back_witness :
  Csv.reader <$>
    read_text (CSV_PATH (platform := sample_platform))
      (write_csv_and_json (platform := sample_platform) awkward_rows
         sample_world).2 =
  Some (headers :: (row_fields headers <$> awkward_rows)).
Proof.
  apply (tabular_file_reads_back (platform := sample_platform) awkward_rows
           sample_world).
  vm_compute. reflexivity.
Defined.



Lemma stopped_updater_still_generates_once_witness :
  seeded (run_updater (platform := sample_platform) 3 30 stopped_world).2 =
    seeded stopped_world ++ [clock stopped_world] ∧
  ((run_updater (platform := sample_platform) 3 30 stopped_world).1
     = inr Finished ∨
   ∃ e, (generate (platform := sample_platform) "Data initialized"
           stopped_world).1 = inl e ∧
        (run_updater (platform := sample_platform) 3 30 stopped_world).1 = inl e).
Proof.
  apply (stopped_updater_still_generates_once (platform := sample_platform) 2 30
           stopped_world 0).
  - reflexivity.
  - vm_compute. discriminate.
Defined.



Lemma post_answers_announce_their_length_witness :
  ∃ out w',
    NoCacheRequestHandler.serve
      (NoCacheRequestHandler.do_POST (platform := sample_platform))
      save_request (encode_utf8 "hello") sample_world = (inr tt, out, w') ∧
    sent_header "Content-Length"
      (py_str_int (Z.of_nat (length (sent_body out)))) out.
Proof.
  apply (post_answers_announce_their_length (platform := sample_platform)
           save_request); discriminate.
Defined.

Lemma any_trailing_slashes_same_behaviour_witness :
  NoCacheRequestHandler.serve
    (NoCacheRequestHandler.do_POST (platform := sample_platform))
    (Http.mkRequest "POST" ("/save-embed" +:+ "///") "HTTP/1.1"
       [("Content-Length", "5")])
    (encode_utf8 "hello") sample_world =
  NoCacheRequestHandler.serve
    (NoCacheRequestHandler.do_POST (platform := sample_platform))
    (Http.mkRequest "POST" "/save-embed" "HTTP/1.1" [("Content-Length", "5")])
    (encode_utf8 "hello") sample_world.
Proof.
  apply (any_trailing_slashes_same_behaviour (platform := sample_platform)).
  reflexivity.
Defined.



Lemma data_files_are_served_as_written_witness :
  ∃ data,
    json_data (platform := sample_platform) sample_rows = inr data ∧
    (Http.path csv_request = "/data.csv" →
     ∃ out w',
       NoCacheRequestHandler.serve
         (NoCacheRequestHandler.do_GET (platform := sample_platform))
         csv_request []
         (write_csv_and_json (platform := sample_platform) sample_rows
            sample_world).2 = (inr tt, out, w') ∧
       sent_status out = Some 200 ∧
       sent_body out = encode_utf8 (csv_text headers sample_rows)) ∧
    (Http.path csv_request = "/data.json" →
     ∃ out w',
       NoCacheRequestHandler.serve
         (NoCacheRequestHandler.do_GET (platform := sample_platform))
         csv_request []
         (write_csv_and_json (platform := sample_platform) sample_rows
            sample_world).2 = (inr tt, out, w') ∧
       sent_status out = Some 200 ∧
       sent_body out = encode_utf8 (Json.dumps Json.pretty data)).
Proof.
  apply (data_files_are_served_as_written (platform := sample_platform)
           sample_rows sample_world csv_request).
  - vm_compute. reflexivity.
  - vm_compute. exact I.
  - discriminate.
  - reflexivity.
Defined.

(** What the reader gets back from the tabular file of the awkward row: the
    quoted name comes back as written, the missing columns are empty. *)
Lemma awkward_row_in_the_tabular_file :
  row_fields headers <$> awkward_rows = [["Grey, Mr"; ""; "12"; ""; ""; ""]] ∧
  decode_utf8 <$>
    files (write_csv_and_json (platform := sample_platform) awkward_rows
             sample_world).2 !! "/srv/election/data.csv" =
  Some ("Party,Color,2020_Seats,2020_Leads,2024_Seats,2024_Leads" +:+
        Csv.lineterminator +:+
        String dquote ("Grey, Mr" +:+ String dquote (",,12,,," +:+
        Csv.lineterminator))).
Proof. split; by vm_compute. Qed.
